(** * ED_ADC: sampled and streaming ADC reads with calibration and statistics

    A shallow embedding of [src/src/ED_adc.cpp] and [src/include/ED_adc.h].

    - C++ [int] values are modelled as [Z]; the [uint32_t] accumulator of
      [ADCChannel::read] wraps modulo [2^32] and its conversion back to
      [int] is written out ([to_int32]), and so is the [int] subtraction
      of [ADCChannel::calculatePercWidth].
    - The single-precision arithmetic of [ADCChannel::calculatePercWidth]
      is modelled bit for bit with the IEEE-754 operations of
      [SpecFloat] at precision 24 ([F32]).
    - The ESP-IDF driver, the timer, the allocator and the logger are an
      environment: a [Driver] holds, for each entry point, the answer to
      its k-th call, and every call is recorded in a [trace].
    - The raw streaming buffer is a [list Byte.byte], as in the source. *)

From Stdlib Require Import ZArith List Lia Bool Arith.
From Stdlib Require Import Sorting.Sorted Sorting.Permutation.
From Stdlib Require Import Strings.String Strings.Byte.
From Stdlib Require Import Floats.SpecFloat.
Import ListNotations.
Open Scope Z_scope.

(* ================================================================== *)
(** ** IEEE-754 binary32, the C++ [float] of the target *)

Module F32.
Definition prec : Z := 24.
Definition emax : Z := 128.

Definition float : Type := spec_float.

(** [static_cast<float>(z)] and the implicit conversion of a [size_t]
    operand: round to nearest, ties to even. *)
Definition of_Z (z : Z) : float := binary_normalize prec emax z 0 false.

Definition mul : float -> float -> float := SFmul prec emax.
Definition div : float -> float -> float := SFdiv prec emax.
Definition sub : float -> float -> float := SFsub prec emax.

(** [static_cast<size_t>(x)]: the fractional part is discarded. *)
Definition trunc (x : float) : Z :=
  match x with
  | S754_finite s m e =>
      let mag := if 0 <=? e then Z.pos m * 2 ^ e else Z.pos m / 2 ^ (- e) in
      if s then - mag else mag
  | _ => 0
  end.
End F32.

(* ================================================================== *)
(** ** Machine integers *)

Definition INT32_MAX : Z := 2147483647.
Definition INT32_MIN : Z := -2147483648.

(** Arithmetic on [uint32_t] is modulo [2^32]. *)
Definition wrap_u32 (z : Z) : Z := z mod 2 ^ 32.

(** Conversion of a [uint32_t] value to [int]; also what a two's
    complement [int] operation leaves of a result outside the [int]
    range. *)
Definition to_int32 (z : Z) : Z := (z + 2 ^ 31) mod 2 ^ 32 - 2 ^ 31.

(** Arithmetic on [uint64_t] is modulo [2^64]. *)
Definition wrap_u64 (z : Z) : Z := z mod 2 ^ 64.

(* ================================================================== *)
(** ** The environment: ESP-IDF driver, timer, allocator, logger *)

Definition esp_err_t : Type := Z.
Definition ESP_OK : esp_err_t := 0.
Definition ESP_FAIL : esp_err_t := -1.
Definition ESP_ERR_NO_MEM : esp_err_t := 0x101.
Definition ESP_ERR_INVALID_ARG : esp_err_t := 0x102.
Definition ESP_ERR_INVALID_STATE : esp_err_t := 0x103.
Definition ESP_ERR_TIMEOUT : esp_err_t := 0x107.

(** Driver handles are opaque pointers; [nullptr] is [0]. *)
Definition handle : Type := Z.
Definition nullptr : handle := 0.

Inductive log_level : Type := LOGE | LOGW.

(** One record per call into the environment, with its arguments and
    its answer. *)
Inductive event : Type :=
| EvLog (lvl : log_level) (msg : string)
| EvDelay (ms : Z)
| EvOneshotNewUnit (unit_id : Z) (err : esp_err_t) (h : handle)
| EvOneshotConfigChannel (h : handle) (chan atten : Z) (err : esp_err_t)
| EvOneshotRead (h : handle) (chan : Z) (err : esp_err_t) (raw : Z)
| EvCaliCreate (unit_id chan atten : Z) (err : esp_err_t) (h : handle)
| EvContNewHandle (err : esp_err_t) (h : handle)
| EvContConfig (h : handle) (err : esp_err_t)
| EvContDeinit (h : handle)
| EvContStart (h : handle) (err : esp_err_t)
| EvContStop (h : handle) (err : esp_err_t)
| EvContRead (h : handle) (err : esp_err_t) (data : list byte)
| EvTimer (t : Z)
| EvMalloc (size : Z) (ok : bool)
| EvFree.

(** The history of calls, newest first. *)
Definition trace : Type := list event.

(** The answers of the environment: field [f] at [k] is what the k-th
    call (counting from 0) of the entry point returns. *)
Record Driver : Type := mkDriver {
  drv_oneshot_new_unit : nat -> esp_err_t * handle;
  drv_oneshot_config_channel : nat -> esp_err_t;
  drv_oneshot_read : nat -> esp_err_t * Z;
  drv_cali_create : nat -> esp_err_t * handle;
  drv_cali_raw_to_voltage : handle -> Z -> Z;
  drv_cont_new_handle : nat -> esp_err_t * handle;
  drv_cont_config : nat -> esp_err_t;
  drv_cont_start : nat -> esp_err_t;
  drv_cont_stop : nat -> esp_err_t;
  drv_cont_read : nat -> esp_err_t * list byte;
  drv_timer : nat -> Z;
  drv_malloc : nat -> bool
}.

Definition is_oneshot_new_unit (e : event) : bool :=
  match e with EvOneshotNewUnit _ _ _ => true | _ => false end.
Definition is_oneshot_config_channel (e : event) : bool :=
  match e with EvOneshotConfigChannel _ _ _ _ => true | _ => false end.
Definition is_oneshot_read (e : event) : bool :=
  match e with EvOneshotRead _ _ _ _ => true | _ => false end.
Definition is_cali_create (e : event) : bool :=
  match e with EvCaliCreate _ _ _ _ _ => true | _ => false end.
Definition is_cont_new_handle (e : event) : bool :=
  match e with EvContNewHandle _ _ => true | _ => false end.
Definition is_cont_config (e : event) : bool :=
  match e with EvContConfig _ _ => true | _ => false end.
Definition is_cont_start (e : event) : bool :=
  match e with EvContStart _ _ => true | _ => false end.
Definition is_cont_stop (e : event) : bool :=
  match e with EvContStop _ _ => true | _ => false end.
Definition is_cont_read (e : event) : bool :=
  match e with EvContRead _ _ _ => true | _ => false end.
Definition is_timer (e : event) : bool :=
  match e with EvTimer _ => true | _ => false end.
Definition is_malloc (e : event) : bool :=
  match e with EvMalloc _ _ => true | _ => false end.
Definition is_log (e : event) : bool :=
  match e with EvLog _ _ => true | _ => false end.

(** How many calls of one kind the history holds. *)
Definition calls (f : event -> bool) (tr : trace) : nat :=
  List.length (filter f tr).

(** The log lines of a history, newest first. *)
Definition logs (tr : trace) : trace := filter is_log tr.

Section Primitives.
Variable drv : Driver.

Definition adc_oneshot_new_unit (unit_id : Z) (tr : trace)
  : esp_err_t * handle * trace :=
  let '(err, h) := drv_oneshot_new_unit drv (calls is_oneshot_new_unit tr) in
  (err, h, EvOneshotNewUnit unit_id err h :: tr).

Definition adc_oneshot_config_channel (h : handle) (chan atten : Z)
  (tr : trace) : esp_err_t * trace :=
  let err := drv_oneshot_config_channel drv
               (calls is_oneshot_config_channel tr) in
  (err, EvOneshotConfigChannel h chan atten err :: tr).

Definition adc_oneshot_read (h : handle) (chan : Z) (tr : trace)
  : esp_err_t * Z * trace :=
  let '(err, raw) := drv_oneshot_read drv (calls is_oneshot_read tr) in
  (err, raw, EvOneshotRead h chan err raw :: tr).

Definition adc_cali_create_scheme_curve_fitting (unit_id chan atten : Z)
  (tr : trace) : esp_err_t * handle * trace :=
  let '(err, h) := drv_cali_create drv (calls is_cali_create tr) in
  (err, h, EvCaliCreate unit_id chan atten err h :: tr).

Definition adc_cali_raw_to_voltage (h : handle) (raw : Z) : Z :=
  drv_cali_raw_to_voltage drv h raw.

Definition adc_continuous_new_handle (tr : trace)
  : esp_err_t * handle * trace :=
  let '(err, h) := drv_cont_new_handle drv (calls is_cont_new_handle tr) in
  (err, h, EvContNewHandle err h :: tr).

Definition adc_continuous_config (h : handle) (tr : trace)
  : esp_err_t * trace :=
  let err := drv_cont_config drv (calls is_cont_config tr) in
  (err, EvContConfig h err :: tr).

Definition adc_continuous_deinit (h : handle) (tr : trace) : trace :=
  EvContDeinit h :: tr.

Definition adc_continuous_start (h : handle) (tr : trace)
  : esp_err_t * trace :=
  let err := drv_cont_start drv (calls is_cont_start tr) in
  (err, EvContStart h err :: tr).

Definition adc_continuous_stop (h : handle) (tr : trace)
  : esp_err_t * trace :=
  let err := drv_cont_stop drv (calls is_cont_stop tr) in
  (err, EvContStop h err :: tr).

(** [adc_continuous_read(h, buffer, buffer_size, &bytes_read, 0)]:
    at most [buffer_size] bytes overwrite the head of [buffer]; the
    answer is the status, the byte count and the buffer afterwards. *)
Definition adc_continuous_read (h : handle) (buffer : list byte)
  (buffer_size : nat) (tr : trace)
  : esp_err_t * nat * list byte * trace :=
  let '(err, data) := drv_cont_read drv (calls is_cont_read tr) in
  let data := firstn buffer_size data in
  let bytes_read := List.length data in
  (err, bytes_read, data ++ skipn bytes_read buffer,
   EvContRead h err data :: tr).

Definition esp_timer_get_time (tr : trace) : Z * trace :=
  let t := drv_timer drv (calls is_timer tr) in
  (t, EvTimer t :: tr).

Definition malloc (size : Z) (tr : trace) : bool * trace :=
  let ok := drv_malloc drv (calls is_malloc tr) in
  (ok, EvMalloc size ok :: tr).

Definition free (tr : trace) : trace := EvFree :: tr.

Definition vTaskDelay (ms : Z) (tr : trace) : trace := EvDelay ms :: tr.

Definition ESP_LOGE (msg : string) (tr : trace) : trace :=
  EvLog LOGE msg :: tr.
Definition ESP_LOGW (msg : string) (tr : trace) : trace :=
  EvLog LOGW msg :: tr.
End Primitives.

(** Streaming handles that were allocated and not released since, read
    off a history. *)
Fixpoint live_cont_handles (tr : trace) : list handle :=
  match tr with
  | [] => []
  | EvContDeinit h :: older => remove Z.eq_dec h (live_cont_handles older)
  | EvContNewHandle err h :: older =>
      if err =? ESP_OK then h :: live_cont_handles older
      else live_cont_handles older
  | _ :: older => live_cont_handles older
  end.

(** Enum values of the ESP-IDF headers used by the source. *)
Definition ADC_UNIT_1 : Z := 0.
Definition ADC_CHANNEL_0 : Z := 0.
Definition ADC_ATTEN_DB_6 : Z := 2.
Definition ADC_ATTEN_DB_12 : Z := 3.

(* ================================================================== *)
(** ** [class ADCUnit] *)

Module ADCUnit.

Record t : Type := mk {
  _is_initialized : bool;
  _unit_id : Z;
  _cont_handle : handle;
  _continuous_initialized : bool;
  _oneshot_handle : handle
}.

(** [ADCUnit::ADCUnit(adc_unit_t unit_id)] *)
Definition ADCUnit (drv : Driver) (unit_id : Z) (tr : trace) : t * trace :=
  let '(err, h, tr1) := adc_oneshot_new_unit drv unit_id tr in
  let initialized := err =? ESP_OK in
  let tr2 := if negb initialized
             then ESP_LOGE "Failed to create oneshot unit" tr1
             else tr1 in
  (mk initialized unit_id nullptr false h, tr2).

Definition isInitialized (u : t) : bool := _is_initialized u.

Definition getOneshotHandle (u : t) : handle := _oneshot_handle u.

Definition getUnitId (u : t) : Z := _unit_id u.

(** [ADCUnit::ensureContinuousInitialized()].  The driver stores the
    new handle through the out-pointer when it succeeds and leaves the
    pointee alone when it fails. *)
Definition ensureContinuousInitialized (drv : Driver) (u : t) (tr : trace)
  : esp_err_t * t * trace :=
  if _continuous_initialized u then (ESP_OK, u, tr)
  else
    let '(err, h, tr1) := adc_continuous_new_handle drv tr in
    if negb (err =? ESP_OK) then (err, u, tr1)
    else
      let u1 := mk (_is_initialized u) (_unit_id u) h
                   (_continuous_initialized u) (_oneshot_handle u) in
      let '(err, tr2) := adc_continuous_config drv (_cont_handle u1) tr1 in
      if negb (err =? ESP_OK) then
        (err, u1, adc_continuous_deinit (_cont_handle u1) tr2)
      else
        (ESP_OK,
         mk (_is_initialized u1) (_unit_id u1) (_cont_handle u1) true
            (_oneshot_handle u1),
         tr2).

(** [ADCUnit::getContinuousHandle()] *)
Definition getContinuousHandle (drv : Driver) (u : t) (tr : trace)
  : handle * t * trace :=
  let '(err, u', tr') := ensureContinuousInitialized drv u tr in
  if err =? ESP_OK then (_cont_handle u', u', tr')
  else (nullptr, u', tr').

(** [ADCUnit::create].  The destructor run by [delete] is declared in
    the header and defined outside the given sources: it is the
    parameter [dtor]. *)
Definition create (dtor : t -> trace -> trace) (drv : Driver) (unit_id : Z)
  (tr : trace) : option t * trace :=
  let '(new_unit, tr) := ADCUnit drv unit_id tr in
  if isInitialized new_unit then (Some new_unit, tr)
  else (None, dtor new_unit tr).

End ADCUnit.

(** [ADCReadResult] of the header. *)
Record ADCReadResult : Type := mkResult {
  average_mv : Z;
  min_mv : Z;
  max_mv : Z;
  p30_width_mv : Z;
  p60_width_mv : Z
}.

(** [std::sort] on a [std::vector<int>].  Integers that compare equal are
    identical, so every sorting algorithm yields this list (see
    [std_sort_unique]). *)
Fixpoint sort_insert (x : Z) (l : list Z) : list Z :=
  match l with
  | [] => [x]
  | y :: l' => if x <=? y then x :: l else y :: sort_insert x l'
  end.

Fixpoint std_sort (l : list Z) : list Z :=
  match l with
  | [] => []
  | x :: l' => sort_insert x (std_sort l')
  end.

(** [data[i]] for a [size_t] index. *)
Definition at_index (data : list Z) (i : Z) : Z := nth (Z.to_nat i) data 0.

(* ================================================================== *)
(** ** [class ADCChannel] *)

Module ADCChannel.

Record t : Type := mk {
  _oneshot_handle : handle;
  _cont_handle : handle;
  _channel : Z;
  _cali_handle : handle;
  _is_initialized : bool
}.

Definition isInitialized (c : t) : bool := _is_initialized c.

(** [ADCChannel::ADCChannel(unit, channel, atten)].  The member
    initialisers run first, in declaration order; [_cali_handle] has no
    initialiser and is written by the calibration call only: until then
    it holds whatever the storage of the new object held, the argument
    [indeterminate]. *)
Definition ADCChannel (drv : Driver) (indeterminate : handle)
  (unit : ADCUnit.t) (channel atten : Z) (tr : trace)
  : t * ADCUnit.t * trace :=
  let oneshot := ADCUnit.getOneshotHandle unit in
  let '(cont, unit, tr) := ADCUnit.getContinuousHandle drv unit tr in
  let '(err, tr) :=
    adc_oneshot_config_channel drv oneshot channel atten tr in
  if negb (err =? ESP_OK) then
    (mk oneshot cont channel indeterminate false, unit,
     ESP_LOGE "ADCChannel - Failed to configure oneshot channel" tr)
  else
    let '(err, cali, tr) :=
      adc_cali_create_scheme_curve_fitting drv
        (ADCUnit.getUnitId unit) channel atten tr in
    if negb (err =? ESP_OK) then
      (mk oneshot cont channel cali false, unit,
       ESP_LOGE "ADCChannel - Failed to create calibration scheme" tr)
    else
      (mk oneshot cont channel cali true, unit, tr).

(** [ADCChannel::create].  The destructor run by [delete] is declared
    in the header and defined outside the given sources: it is the
    parameter [dtor].  [indeterminate] is the content of the storage
    that [new] hands to the constructor. *)
Definition create (dtor : t -> trace -> trace) (drv : Driver)
  (indeterminate : handle) (unit : ADCUnit.t) (channel atten : Z)
  (tr : trace) : option t * ADCUnit.t * trace :=
  let '(new_channel, unit, tr) :=
    ADCChannel drv indeterminate unit channel atten tr in
  if isInitialized new_channel then (Some new_channel, unit, tr)
  else (None, unit, dtor new_channel tr).

(** The index computation of [calculatePercWidth], in [float]. *)
Definition perc_decimal (percentile : Z) : F32.float :=
  F32.div (F32.of_Z percentile) (F32.of_Z 100).

Definition lower_index (n percentile : Z) : Z :=
  F32.trunc (F32.mul (F32.of_Z (n - 1)) (perc_decimal percentile)).

Definition upper_index (n percentile : Z) : Z :=
  F32.trunc (F32.mul (F32.of_Z (n - 1))
               (F32.sub (F32.of_Z 1) (perc_decimal percentile))).

(** [ADCChannel::calculatePercWidth(data, percentile)].  The vector is
    taken by reference and sorted in place: the answer is the width and
    the vector as the call leaves it.  The last subtraction is an [int]
    subtraction: a difference outside the [int] range wraps around. *)
Definition calculatePercWidth (data : list Z) (percentile : Z)
  : Z * list Z :=
  if (percentile <? 10) || (percentile >? 90) then (0, data)
  else if match data with [] => true | _ => false end then (0, data)
  else
    let data := std_sort data in
    let n := Z.of_nat (List.length data) in
    let lower_index := Z.min (lower_index n percentile) (n - 1) in
    let upper_index := Z.min (upper_index n percentile) (n - 1) in
    let lower_value := at_index data lower_index in
    let upper_value := at_index data upper_index in
    (to_int32 (upper_value - lower_value), data).

(** One decoded streaming record: [(buffer[i+1] << 8) | buffer[i]],
    then [&= 0xFFF]. *)
Definition raw_reading (lo hi : byte) : Z :=
  Z.land (Z.lor (Z.shiftl (Z.of_N (Byte.to_N hi)) 8)
                (Z.of_N (Byte.to_N lo))) 0xFFF.

(** The inner [for (size_t i = 0; i < bytes_read; i += 2)] loop of
    [sampleForDuration]; [fuel] bounds the iterations. *)
Fixpoint decode_loop (drv : Driver) (c : t) (buffer : list byte)
  (bytes_read : nat) (fuel : nat) (i : nat) (voltages : list Z)
  : list Z :=
  match fuel with
  | O => voltages
  | S fuel =>
      if (i <? bytes_read)%nat then
        let raw := raw_reading (nth i buffer x00) (nth (i + 1) buffer x00) in
        let voltage := adc_cali_raw_to_voltage drv (_cali_handle c) raw in
        decode_loop drv c buffer bytes_read fuel (i + 2)
          (voltages ++ [voltage])
      else voltages
  end.

(** The loop condition
    [(esp_timer_get_time() - start_time) / 1000 < duration_ms],
    evaluated in [uint64_t]. *)
Definition still_sampling (now start_time duration_ms : Z) : bool :=
  wrap_u64 (now - start_time) / 1000 <? duration_ms.

(** One pass through the body of the polling loop. *)
Definition poll_body (drv : Driver) (c : t) (buffer : list byte)
  (voltages : list Z) (tr : trace) : list byte * list Z * trace :=
  let '(ret, bytes_read, buffer, tr) :=
    adc_continuous_read drv (_cont_handle c) buffer 1024 tr in
  if ret =? ESP_OK then
    (buffer,
     decode_loop drv c buffer bytes_read bytes_read 0 voltages, tr)
  else if negb (ret =? ESP_ERR_TIMEOUT) then
    (buffer, voltages, ESP_LOGW "ADC continuous read error" tr)
  else (buffer, voltages, tr).

(** The [while] loop of [sampleForDuration]; it runs as long as the
    clock says so, hence the [fuel]. *)
Fixpoint poll_loop (drv : Driver) (c : t) (start_time duration_ms : Z)
  (fuel : nat) (buffer : list byte) (voltages : list Z) (tr : trace)
  : option (list byte * list Z * trace) :=
  match fuel with
  | O => None
  | S fuel =>
      let '(now, tr) := esp_timer_get_time drv tr in
      if still_sampling now start_time duration_ms then
        let '(buffer, voltages, tr) := poll_body drv c buffer voltages tr in
        poll_loop drv c start_time duration_ms fuel buffer voltages tr
      else Some (buffer, voltages, tr)
  end.

(** [ADCChannel::sampleForDuration(duration_ms)] *)
Definition sampleForDuration (drv : Driver) (c : t) (duration_ms : Z)
  (fuel : nat) (tr : trace) : option (list Z * trace) :=
  let voltages : list Z := [] in
  let buffer_size := 1024 in
  let '(ok, tr) := malloc drv buffer_size tr in
  if negb ok then
    Some (voltages,
          ESP_LOGE "Failed to allocate ADC buffer for continuous sampling" tr)
  else
    let buffer := repeat x00 1024 in
    let '(start_err, tr) := adc_continuous_start drv (_cont_handle c) tr in
    if negb (start_err =? ESP_OK) then
      Some (voltages,
            free (ESP_LOGE "Failed to start continuous ADC" tr))
    else
      let '(start_time, tr) := esp_timer_get_time drv tr in
      let start_time := wrap_u64 start_time in
      match poll_loop drv c start_time duration_ms fuel buffer voltages tr
      with
      | None => None
      | Some (buffer, voltages, tr) =>
          let '(stop_err, tr) :=
            adc_continuous_stop drv (_cont_handle c) tr in
          let tr := if negb (stop_err =? ESP_OK)
                    then ESP_LOGE "Failed to stop continuous ADC" tr
                    else tr in
          Some (voltages, free tr)
      end.

(** The accumulators of [read]: the samples so far, [sum], [min] and
    [max]. *)
Record acc : Type := mkAcc {
  acc_voltages : list Z;
  acc_sum : Z;
  acc_min : Z;
  acc_max : Z
}.

(** The bookkeeping of one sample in [read]:
    [voltages.push_back(voltage); sum += voltage;
     if (voltage < min) min = voltage; if (voltage > max) max = voltage;] *)
Definition push_sample (a : acc) (voltage : Z) : acc :=
  mkAcc (acc_voltages a ++ [voltage])
        (wrap_u32 (acc_sum a + voltage))
        (if voltage <? acc_min a then voltage else acc_min a)
        (if voltage >? acc_max a then voltage else acc_max a).

(** The [for (int i = 0; i < sample_count; i++)] loop of [read], with
    [remaining] passes to go.  A failed read leaves the loop (and the
    function) with the driver's code. *)
Fixpoint read_loop (drv : Driver) (c : t) (sample_delay_ms : Z)
  (remaining : nat) (a : acc) (tr : trace)
  : (esp_err_t * trace) + (acc * trace) :=
  match remaining with
  | O => inr (a, tr)
  | S remaining =>
      let '(err, raw, tr) :=
        adc_oneshot_read drv (_oneshot_handle c) (_channel c) tr in
      if negb (err =? ESP_OK) then
        inl (err, ESP_LOGE "Oneshot read failed" tr)
      else
        let voltage := adc_cali_raw_to_voltage drv (_cali_handle c) raw in
        let a := push_sample a voltage in
        let tr := if sample_delay_ms >? 0
                  then vTaskDelay sample_delay_ms tr else tr in
        read_loop drv c sample_delay_ms remaining a tr
  end.

(** [ADCChannel::read(sample_count, sample_delay_ms, result)]: the
    answer holds the status and the caller's [result] as the call leaves
    it.  With [sample_count <= 0] the call has no defined answer
    ([reserve] of a negative count, division by zero): [None]. *)
Definition read (drv : Driver) (c : t) (sample_count sample_delay_ms : Z)
  (result : ADCReadResult) (tr : trace)
  : option (esp_err_t * ADCReadResult * trace) :=
  if sample_count <=? 0 then None
  else
    match read_loop drv c sample_delay_ms (Z.to_nat sample_count)
            (mkAcc [] 0 INT32_MAX INT32_MIN) tr with
    | inl (err, tr) => Some (err, result, tr)
    | inr (a, tr) =>
        let average := to_int32 (acc_sum a / wrap_u32 sample_count) in
        let '(p30, voltages) := calculatePercWidth (acc_voltages a) 30 in
        let '(p60, voltages) := calculatePercWidth voltages 60 in
        Some (ESP_OK,
              mkResult average (acc_min a) (acc_max a) p30 p60, tr)
    end.

End ADCChannel.

(* ================================================================== *)
(** ** Definitions used to state the properties *)

(** The index formula in exact arithmetic: [(n-1) * p/100] and
    [(n-1) * (1 - p/100)], truncated. *)
Definition exact_lower_index (n percentile : Z) : Z :=
  ((n - 1) * percentile) / 100.

Definition exact_upper_index (n percentile : Z) : Z :=
  ((n - 1) * (100 - percentile)) / 100.

(** The percentile width computed with the exact index formula: sort,
    take both indices, clamp them to [n-1], subtract. *)
Definition percWidth_exact (data : list Z) (percentile : Z) : Z :=
  let sorted := std_sort data in
  let n := Z.of_nat (List.length sorted) in
  at_index sorted (Z.min (exact_upper_index n percentile) (n - 1))
  - at_index sorted (Z.min (exact_lower_index n percentile) (n - 1)).

(** Both [float] indices are inside the vector and are the exact index or
    the one below it, and the lower one is the smaller of the two exactly
    when the percentile is at most 50, for every percentile of [10..90]
    and every size up to [max_size]. *)
Definition indices_close (max_size : nat) : bool :=
  let sizes :=
    map (fun n => let n := Z.of_nat n in (n, F32.of_Z (n - 1)))
        (seq 1 max_size) in
  forallb (fun p =>
    let p := Z.of_nat p in
    let pd := ADCChannel.perc_decimal p in
    let qd := F32.sub (F32.of_Z 1) pd in
    forallb (fun nk =>
      let n := fst nk in
      let l := F32.trunc (F32.mul (snd nk) pd) in
      let u := F32.trunc (F32.mul (snd nk) qd) in
      (0 <=? l) && (l <=? n - 1) && (0 <=? u) && (u <=? n - 1)
      && (exact_lower_index n p - 1 <=? l) && (l <=? exact_lower_index n p)
      && (exact_upper_index n p - 1 <=? u) && (u <=? exact_upper_index n p)
      && (if p <=? 50 then l <=? u else u <=? l))
      sizes)
    (seq 10 81).

Definition sum_list (l : list Z) : Z := fold_right Z.add 0 l.

(** The calibrated samples that [n] successful reads starting at the
    [k0]-th driver call deliver. *)
Definition samples (drv : Driver) (c : ADCChannel.t) (k0 n : nat) : list Z :=
  map (fun i => adc_cali_raw_to_voltage drv (ADCChannel._cali_handle c)
                  (snd (drv_oneshot_read drv (k0 + i)%nat)))
      (seq 0 n).

(** Consecutive byte pairs of a streaming frame: low byte, high byte. *)
Fixpoint records (data : list byte) : list (byte * byte) :=
  match data with
  | lo :: hi :: rest => (lo, hi) :: records rest
  | _ => []
  end.

Definition byte_val (b : byte) : Z := Z.of_N (Byte.to_N b).

(** What one poll contributes to the output when every successful read
    delivers whole records. *)
Definition decoded_frame (drv : Driver) (c : ADCChannel.t) (k : nat)
  : list Z :=
  let '(ret, data) := drv_cont_read drv k in
  if ret =? ESP_OK then
    map (fun r => adc_cali_raw_to_voltage drv (ADCChannel._cali_handle c)
                    (ADCChannel.raw_reading (fst r) (snd r)))
        (records (firstn 1024 data))
  else [].

(** The warning one poll leaves in the log. *)
Definition poll_warning (drv : Driver) (k : nat) : trace :=
  let ret := fst (drv_cont_read drv k) in
  if (ret =? ESP_OK) || (ret =? ESP_ERR_TIMEOUT) then []
  else [EvLog LOGW "ADC continuous read error"].

(** [m] passes of the polling loop: a clock reading, then the body. *)
Fixpoint polls (drv : Driver) (c : ADCChannel.t) (m : nat)
  (st : list byte * list Z * trace) : list byte * list Z * trace :=
  match m with
  | O => st
  | S m =>
      let '(buffer, voltages, tr) := st in
      let '(_, tr) := esp_timer_get_time drv tr in
      polls drv c m (ADCChannel.poll_body drv c buffer voltages tr)
  end.

(** The state of a unit and of the history after [k] calls of
    [getContinuousHandle]. *)
Fixpoint after_calls (drv : Driver) (k : nat) (u : ADCUnit.t) (tr : trace)
  : ADCUnit.t * trace :=
  match k with
  | O => (u, tr)
  | S k =>
      let '(_, u, tr) := ADCUnit.getContinuousHandle drv u tr in
      after_calls drv k u tr
  end.

(** Completed provisionings of a streaming handle in a history: the
    successful [adc_continuous_config] calls. *)
Definition is_provisioning (e : event) : bool :=
  match e with EvContConfig _ err => err =? ESP_OK | _ => false end.

(** *** Mock drivers *)

(** Everything succeeds; read [k] returns raw code [100 * (k + 1)], the
    calibration is the identity, the clock advances 1 ms per reading and
    the streaming read has no data. *)
Definition steady_driver : Driver :=
  mkDriver (fun _ => (ESP_OK, 1))
           (fun _ => ESP_OK)
           (fun k => (ESP_OK, 100 * (Z.of_nat k + 1)))
           (fun _ => (ESP_OK, 2))
           (fun _ raw => raw)
           (fun k => (ESP_OK, 16 + Z.of_nat k))
           (fun _ => ESP_OK)
           (fun _ => ESP_OK)
           (fun _ => ESP_OK)
           (fun _ => (ESP_ERR_TIMEOUT, []))
           (fun k => 1000 * Z.of_nat k)
           (fun _ => true).

Definition with_oneshot_read (f : nat -> esp_err_t * Z) (d : Driver)
  : Driver :=
  mkDriver (drv_oneshot_new_unit d) (drv_oneshot_config_channel d) f
           (drv_cali_create d) (drv_cali_raw_to_voltage d)
           (drv_cont_new_handle d) (drv_cont_config d) (drv_cont_start d)
           (drv_cont_stop d) (drv_cont_read d) (drv_timer d) (drv_malloc d).

Definition with_cont_new_handle (f : nat -> esp_err_t * handle) (d : Driver)
  : Driver :=
  mkDriver (drv_oneshot_new_unit d) (drv_oneshot_config_channel d)
           (drv_oneshot_read d) (drv_cali_create d)
           (drv_cali_raw_to_voltage d) f (drv_cont_config d)
           (drv_cont_start d) (drv_cont_stop d) (drv_cont_read d)
           (drv_timer d) (drv_malloc d).

Definition with_cont_config (f : nat -> esp_err_t) (d : Driver) : Driver :=
  mkDriver (drv_oneshot_new_unit d) (drv_oneshot_config_channel d)
           (drv_oneshot_read d) (drv_cali_create d)
           (drv_cali_raw_to_voltage d) (drv_cont_new_handle d) f
           (drv_cont_start d) (drv_cont_stop d) (drv_cont_read d)
           (drv_timer d) (drv_malloc d).

Definition with_cont_read (f : nat -> esp_err_t * list byte) (d : Driver)
  : Driver :=
  mkDriver (drv_oneshot_new_unit d) (drv_oneshot_config_channel d)
           (drv_oneshot_read d) (drv_cali_create d)
           (drv_cali_raw_to_voltage d) (drv_cont_new_handle d)
           (drv_cont_config d) (drv_cont_start d) (drv_cont_stop d) f
           (drv_timer d) (drv_malloc d).

(** The third single-shot read times out. *)
Definition third_read_fails : Driver :=
  with_oneshot_read
    (fun k => if (k =? 2)%nat then (ESP_ERR_TIMEOUT, 0)
              else (ESP_OK, 100 * (Z.of_nat k + 1)))
    steady_driver.

(** Every calibrated sample is [-5]. *)
Definition negative_samples : Driver :=
  with_oneshot_read (fun _ => (ESP_OK, -5)) steady_driver.

(** Every calibrated sample is [1100]. *)
Definition constant_samples : Driver :=
  with_oneshot_read (fun _ => (ESP_OK, 1100)) steady_driver.


(** Every handle allocation fails. *)
Definition no_streaming : Driver :=
  with_cont_new_handle (fun _ => (ESP_ERR_NO_MEM, nullptr)) steady_driver.

(** The first streaming configuration is refused, the later ones pass. *)
Definition first_config_fails : Driver :=
  with_cont_config
    (fun k => if (k =? 0)%nat then ESP_ERR_INVALID_ARG else ESP_OK)
    steady_driver.

(** Polls: two records, no data yet, a driver error, one record. *)
Definition bursty_stream : Driver :=
  with_cont_read
    (fun k => match k with
              | 0%nat => (ESP_OK, [x34; x12; xff; xff])
              | 1%nat => (ESP_ERR_TIMEOUT, [])
              | 2%nat => (ESP_ERR_INVALID_STATE, [])
              | 3%nat => (ESP_OK, [x01; xf0])
              | _ => (ESP_ERR_TIMEOUT, [])
              end)
    steady_driver.

Definition no_dtor (c : ADCChannel.t) (tr : trace) : trace := tr.

Definition zero_result : ADCReadResult := mkResult 0 0 0 0 0.

(** A unit and a channel as the constructors build them on
    [steady_driver]. *)
Definition unit0 : ADCUnit.t := fst (ADCUnit.ADCUnit steady_driver ADC_UNIT_1 []).

Definition channel0 : ADCChannel.t :=
  fst (fst (ADCChannel.ADCChannel steady_driver nullptr unit0 ADC_CHANNEL_0
              ADC_ATTEN_DB_6 [])).

(** *** Further recognisers, mock drivers and trace shapes *)

Definition is_free (e : event) : bool :=
  match e with EvFree => true | _ => false end.
Definition is_delay (e : event) : bool :=
  match e with EvDelay _ => true | _ => false end.
Definition is_cont_deinit (e : event) : bool :=
  match e with EvContDeinit _ => true | _ => false end.

(** The streaming calls of a history go to handle [h]. *)
Definition on_cont_handle (h : handle) (e : event) : Prop :=
  match e with
  | EvContStart h' _ | EvContStop h' _ | EvContRead h' _ _ => h' = h
  | _ => True
  end.

(** The three driver entry points of the streaming provisioning. *)
Definition is_provisioning_call (e : event) : bool :=
  is_cont_new_handle e || is_cont_config e || is_cont_deinit e.

(** What the [i]-th pass of the loop of [read] adds to the history when
    its read succeeds, newest first. *)
Definition read_pass_events (drv : Driver) (c : ADCChannel.t)
  (sample_delay_ms : Z) (i : nat) : trace :=
  (if sample_delay_ms >? 0 then [EvDelay sample_delay_ms] else [])
  ++ [EvOneshotRead (ADCChannel._oneshot_handle c) (ADCChannel._channel c)
        ESP_OK (snd (drv_oneshot_read drv i))].

Definition with_oneshot_new_unit (f : nat -> esp_err_t * handle) (d : Driver)
  : Driver :=
  mkDriver f (drv_oneshot_config_channel d) (drv_oneshot_read d)
           (drv_cali_create d) (drv_cali_raw_to_voltage d)
           (drv_cont_new_handle d) (drv_cont_config d) (drv_cont_start d)
           (drv_cont_stop d) (drv_cont_read d) (drv_timer d) (drv_malloc d).

Definition with_oneshot_config_channel (f : nat -> esp_err_t) (d : Driver)
  : Driver :=
  mkDriver (drv_oneshot_new_unit d) f (drv_oneshot_read d)
           (drv_cali_create d) (drv_cali_raw_to_voltage d)
           (drv_cont_new_handle d) (drv_cont_config d) (drv_cont_start d)
           (drv_cont_stop d) (drv_cont_read d) (drv_timer d) (drv_malloc d).

Definition with_cont_start (f : nat -> esp_err_t) (d : Driver) : Driver :=
  mkDriver (drv_oneshot_new_unit d) (drv_oneshot_config_channel d)
           (drv_oneshot_read d) (drv_cali_create d)
           (drv_cali_raw_to_voltage d) (drv_cont_new_handle d)
           (drv_cont_config d) f (drv_cont_stop d) (drv_cont_read d)
           (drv_timer d) (drv_malloc d).

Definition with_malloc (f : nat -> bool) (d : Driver) : Driver :=
  mkDriver (drv_oneshot_new_unit d) (drv_oneshot_config_channel d)
           (drv_oneshot_read d) (drv_cali_create d)
           (drv_cali_raw_to_voltage d) (drv_cont_new_handle d)
           (drv_cont_config d) (drv_cont_start d) (drv_cont_stop d)
           (drv_cont_read d) (drv_timer d) f.

(** The single-shot unit cannot be created. *)
Definition no_unit : Driver :=
  with_oneshot_new_unit (fun _ => (ESP_ERR_NO_MEM, nullptr)) steady_driver.

(** The single-shot channel configuration is refused. *)
Definition channel_refused : Driver :=
  with_oneshot_config_channel (fun _ => ESP_ERR_INVALID_ARG) steady_driver.

(** The streaming driver refuses to start. *)
Definition start_refused : Driver :=
  with_cont_start (fun _ => ESP_ERR_INVALID_STATE) bursty_stream.

(** A successful poll delivers three bytes: one record and a half. *)
Definition odd_frame : Driver :=
  with_cont_read (fun _ => (ESP_OK, [x34; x12; x56])) steady_driver.

(** The calibrated samples are [INT32_MAX], [INT32_MIN], [INT32_MAX],
    [INT32_MAX], ... *)
Definition extreme_samples : Driver :=
  with_oneshot_read
    (fun k => (ESP_OK, if (k =? 1)%nat then INT32_MIN else INT32_MAX))
    steady_driver.

(* ================================================================== *)
(** ** [std::sort]: the sorted permutation *)

Lemma sort_insert_perm (x : Z) (l : list Z) :
  Permutation (x :: l) (sort_insert x l).
Proof.
  induction l as [|y l IH]; simpl.
  - apply Permutation_refl.
  - destruct (x <=? y).
    + apply Permutation_refl.
    + eapply perm_trans; [apply perm_swap|]. now apply perm_skip.
Qed.

Lemma std_sort_perm (l : list Z) : Permutation l (std_sort l).
Proof.
  induction l as [|x l IH]; simpl.
  - constructor.
  - eapply perm_trans; [apply perm_skip, IH|]. apply sort_insert_perm.
Qed.

Lemma std_sort_length (l : list Z) : List.length (std_sort l) = List.length l.
Proof. symmetry. apply Permutation_length, std_sort_perm. Qed.

Lemma sort_insert_sorted (x : Z) (l : list Z) :
  Sorted Z.le l -> Sorted Z.le (sort_insert x l).
Proof.
  induction l as [|y l IH]; simpl; intros Hs.
  - repeat constructor.
  - destruct (Z.leb_spec x y) as [E|E].
    + constructor; [assumption|]. now constructor.
    + inversion Hs as [|? ? Hl Hhd]; subst.
      constructor; [now apply IH|].
      destruct l as [|z l]; simpl.
      * constructor. lia.
      * destruct (x <=? z); constructor; [lia|].
        inversion Hhd; subst. assumption.
Qed.

Lemma std_sort_sorted (l : list Z) : Sorted Z.le (std_sort l).
Proof.
  induction l as [|x l IH]; simpl.
  - constructor.
  - now apply sort_insert_sorted.
Qed.

Lemma std_sort_sorted_id (l : list Z) : Sorted Z.le l -> std_sort l = l.
Proof.
  induction l as [|x l IH]; simpl; intros Hs; [reflexivity|].
  inversion Hs as [|? ? Hl Hhd]; subst.
  rewrite (IH Hl).
  destruct l as [|y l]; simpl; [reflexivity|].
  inversion Hhd; subst.
  destruct (Z.leb_spec x y); [reflexivity|lia].
Qed.

Lemma sort_insert_comm (x y : Z) (l : list Z) :
  sort_insert x (sort_insert y l) = sort_insert y (sort_insert x l).
Proof.
  induction l as [|z l IH]; simpl.
  - destruct (Z.leb_spec x y), (Z.leb_spec y x);
      try reflexivity; try lia.
    assert (x = y) by lia. now subst.
  - destruct (Z.leb_spec y z), (Z.leb_spec x z); simpl;
      destruct (Z.leb_spec x y), (Z.leb_spec y x),
               (Z.leb_spec y z), (Z.leb_spec x z);
      try lia; try reflexivity;
      try (assert (x = y) by lia; subst; reflexivity).
    all: now rewrite IH.
Qed.

Lemma std_sort_perm_eq (l l' : list Z) :
  Permutation l l' -> std_sort l = std_sort l'.
Proof.
  induction 1; simpl.
  - reflexivity.
  - now f_equal.
  - apply sort_insert_comm.
  - congruence.
Qed.

(** Whatever algorithm sorts the vector, the outcome is [std_sort]. *)
Lemma std_sort_unique (data s : list Z) :
  Sorted Z.le s -> Permutation s data -> std_sort data = s.
Proof.
  intros Hs Hp.
  rewrite <- (std_sort_perm_eq _ _ Hp). now apply std_sort_sorted_id.
Qed.

Lemma std_sort_idempotent (l : list Z) : std_sort (std_sort l) = std_sort l.
Proof. apply std_sort_sorted_id, std_sort_sorted. Qed.

(* ================================================================== *)
(** ** [ADCChannel::calculatePercWidth] *)

Lemma indices_close_checked : indices_close 1024 = true.
Proof. vm_cast_no_check (eq_refl true). Qed.

Lemma indices_close_at (max_size : nat) (n p : Z) :
  indices_close max_size = true ->
  1 <= n <= Z.of_nat max_size -> 10 <= p <= 90 ->
  0 <= ADCChannel.lower_index n p <= n - 1
  /\ 0 <= ADCChannel.upper_index n p <= n - 1
  /\ exact_lower_index n p - 1 <= ADCChannel.lower_index n p
       <= exact_lower_index n p
  /\ exact_upper_index n p - 1 <= ADCChannel.upper_index n p
       <= exact_upper_index n p
  /\ (p <= 50 -> ADCChannel.lower_index n p <= ADCChannel.upper_index n p)
  /\ (50 < p -> ADCChannel.upper_index n p <= ADCChannel.lower_index n p).
Proof.
  intros Hc Hn Hp. unfold indices_close in Hc.
  rewrite forallb_forall in Hc.
  specialize (Hc (Z.to_nat p)).
  assert (Hin : In (Z.to_nat p) (seq 10 81)) by (apply in_seq; lia).
  specialize (Hc Hin). cbv zeta in Hc.
  rewrite forallb_forall in Hc.
  specialize (Hc (n, F32.of_Z (n - 1))).
  assert (Hin' : In (n, F32.of_Z (n - 1))
                   (map (fun n => (Z.of_nat n, F32.of_Z (Z.of_nat n - 1)))
                      (seq 1 max_size))).
  { apply in_map_iff. exists (Z.to_nat n).
    rewrite Z2Nat.id by lia. split; [reflexivity|]. apply in_seq. lia. }
  specialize (Hc Hin'). cbn [fst snd] in Hc.
  rewrite !Z2Nat.id in Hc by lia.
  unfold ADCChannel.lower_index, ADCChannel.upper_index.
  repeat (apply andb_prop in Hc; destruct Hc as [Hc ?]).
  destruct (Z.leb_spec p 50); lia.
Qed.

(** The two early returns of the function. *)
Lemma calculatePercWidth_guards (data : list Z) (percentile : Z) :
  percentile < 10 \/ percentile > 90 \/ data = [] ->
  ADCChannel.calculatePercWidth data percentile = (0, data).
Proof.
  intros H. unfold ADCChannel.calculatePercWidth.
  destruct (Z.ltb_spec percentile 10); [reflexivity|].
  destruct (Z.gtb_spec percentile 90); [reflexivity|].
  simpl. destruct H as [H|[H|H]]; try lia.
  now subst.
Qed.

(** C7: for every vector, a percentile below 10 or above 90 gives the
    width 0, and so does an empty vector at every percentile; the
    function is total, so neither case fails, and the vector is left as
    it was. *)
Theorem calculatePercWidth_zero (data : list Z) (percentile : Z) :
  percentile < 10 \/ percentile > 90 \/ data = [] ->
  ADCChannel.calculatePercWidth data percentile = (0, data).
Proof. exact (calculatePercWidth_guards data percentile). Qed.

Lemma calculatePercWidth_zero_witness :
  (95 < 10 \/ 95 > 90 \/ [3; 1; 2] = []) /\
  ADCChannel.calculatePercWidth [3; 1; 2] 95 = (0, [3; 1; 2]).
Proof.
  split; [right; left; lia|].
  apply (calculatePercWidth_zero [3; 1; 2] 95). right; left; lia.
Defined.

Lemma to_int32_small (z : Z) :
  INT32_MIN <= z <= INT32_MAX -> to_int32 z = z.
Proof.
  unfold to_int32, INT32_MIN, INT32_MAX. intros H.
  rewrite Z.mod_small; lia.
Qed.

Lemma to_int32_range (z : Z) : INT32_MIN <= to_int32 z <= INT32_MAX.
Proof.
  unfold to_int32, INT32_MIN, INT32_MAX.
  pose proof (Z.mod_pos_bound (z + 2 ^ 31) (2 ^ 32) ltac:(lia)). lia.
Qed.

Lemma calculatePercWidth_in_range (data : list Z) (p : Z) :
  data <> [] -> 10 <= p <= 90 ->
  let sorted := std_sort data in
  let n := Z.of_nat (List.length data) in
  ADCChannel.calculatePercWidth data p =
    (to_int32
       (at_index sorted (Z.min (ADCChannel.upper_index n p) (n - 1))
        - at_index sorted (Z.min (ADCChannel.lower_index n p) (n - 1))),
     sorted).
Proof.
  intros Hne Hp. unfold ADCChannel.calculatePercWidth.
  destruct (Z.ltb_spec p 10); [lia|].
  destruct (Z.gtb_spec p 90); [lia|].
  simpl. destruct data as [|x data]; [congruence|].
  cbv zeta. now rewrite std_sort_length.
Qed.

(** The subtraction overflowing: on [INT_MAX, INT_MIN, INT_MAX] at
    percentile 30 the two values read are [INT_MAX] and [INT_MIN]; their
    difference does not fit an [int] and the result is -1. *)
Example calculatePercWidth_wraps :
  ADCChannel.calculatePercWidth [INT32_MAX; INT32_MIN; INT32_MAX] 30
  = (-1, [INT32_MIN; INT32_MAX; INT32_MAX]).
Proof. vm_compute. reflexivity. Qed.

(** C1 (amended): on a non-empty vector and a percentile of [10..90] the
    function returns the [int] difference [s[upper] - s[lower]] where [s]
    is the ascending rearrangement of the input and both indices are
    computed in single precision, [(n-1) * (p/100)] and
    [(n-1) * (1 - p/100)] truncated, and clamped to [n-1]; the
    difference is exact whenever it fits an [int] and wraps around
    otherwise; the vector is left sorted.  Up to 1024 elements each index
    lies in [0..n-1] and equals the exact truncated value or the one below
    it. *)
Theorem calculatePercWidth_algorithm (data s : list Z) (p : Z) :
  data <> [] -> 10 <= p <= 90 ->
  Sorted Z.le s -> Permutation s data ->
  let n := Z.of_nat (List.length data) in
  let upper_value :=
    at_index s (Z.min (ADCChannel.upper_index n p) (n - 1)) in
  let lower_value :=
    at_index s (Z.min (ADCChannel.lower_index n p) (n - 1)) in
  ADCChannel.calculatePercWidth data p
    = (to_int32 (upper_value - lower_value), s)
  /\ (INT32_MIN <= upper_value - lower_value <= INT32_MAX ->
      fst (ADCChannel.calculatePercWidth data p)
      = upper_value - lower_value)
  /\ (n <= 1024 ->
      0 <= ADCChannel.lower_index n p <= n - 1
      /\ 0 <= ADCChannel.upper_index n p <= n - 1
      /\ exact_lower_index n p - 1 <= ADCChannel.lower_index n p
           <= exact_lower_index n p
      /\ exact_upper_index n p - 1 <= ADCChannel.upper_index n p
           <= exact_upper_index n p).
Proof.
  intros Hne Hp Hs Hperm n upper_value lower_value.
  assert (He : ADCChannel.calculatePercWidth data p
               = (to_int32 (upper_value - lower_value), s)).
  { rewrite (calculatePercWidth_in_range data p Hne Hp).
    now rewrite (std_sort_unique data s Hs Hperm). }
  split; [exact He|]. split.
  - intros Hfit. rewrite He. cbn [fst]. now apply to_int32_small.
  - intros Hn.
    destruct (indices_close_at 1024 n p indices_close_checked)
      as [Hl [Hu [Hel [Heu _]]]]; [|assumption|auto].
    subst n. destruct data; [congruence|]. simpl List.length in *.
    change (Z.of_nat 1024) with 1024. lia.
Qed.

Lemma calculatePercWidth_algorithm_witness :
  ADCChannel.calculatePercWidth [300; 100; 500; 200; 400] 30 =
    (to_int32 (300 - 200), [100; 200; 300; 400; 500])
  /\ fst (ADCChannel.calculatePercWidth [300; 100; 500; 200; 400] 30)
     = 300 - 200
  /\ ADCChannel.lower_index 5 30 = 1 /\ ADCChannel.upper_index 5 30 = 2
  /\ exact_lower_index 5 30 - 1 <= ADCChannel.lower_index 5 30
       <= exact_lower_index 5 30
  /\ exact_upper_index 5 30 - 1 <= ADCChannel.upper_index 5 30
       <= exact_upper_index 5 30.
Proof.
  assert (Hne : [300; 100; 500; 200; 400] <> []) by discriminate.
  assert (Hp : 10 <= 30 <= 90) by lia.
  assert (Hs : Sorted Z.le [100; 200; 300; 400; 500])
    by (repeat constructor; lia).
  assert (Hperm : Permutation [100; 200; 300; 400; 500]
                    [300; 100; 500; 200; 400])
    by (apply Permutation_sym, (std_sort_perm [300; 100; 500; 200; 400])).
  destruct (calculatePercWidth_algorithm _ _ 30 Hne Hp Hs Hperm)
    as [He [Hx Hb]].
  assert (Hfit : INT32_MIN <= 300 - 200 <= INT32_MAX)
    by (unfold INT32_MIN, INT32_MAX; lia).
  assert (Hn : Z.of_nat (List.length [300; 100; 500; 200; 400]) <= 1024)
    by (simpl; lia).
  destruct (Hb Hn) as [_ [_ [Hl Hu]]].
  split; [exact He|]. split; [exact (Hx Hfit)|].
  split; [reflexivity|]. split; [reflexivity|].
  split; [exact Hl|exact Hu].
Defined.

(** C1, counterexample: with six elements and percentile 60 the upper
    index is 1, not the exact [trunc (5 * 0.4) = 2], and the width
    differs from the one the exact formula gives. *)
Lemma calculatePercWidth_not_exact_formula :
  ADCChannel.upper_index 6 60 = 1 /\ exact_upper_index 6 60 = 2
  /\ fst (ADCChannel.calculatePercWidth [0; 10; 20; 30; 40; 50] 60) = -20
  /\ percWidth_exact [0; 10; 20; 30; 40; 50] 60 = -10.
Proof. repeat split; vm_compute; reflexivity. Qed.

(** C3, the code at the failing input: percentile 60 on
    [100,200,300,400,500] gives a negative width, and the index pairs of
    40 and 60 on six elements are [(2,3)] and [(3,1)], not each other's
    mirror image. *)
Theorem calculatePercWidth_negative_above_50 :
  fst (ADCChannel.calculatePercWidth [100; 200; 300; 400; 500] 60) = -100
  /\ (ADCChannel.lower_index 6 40, ADCChannel.upper_index 6 40) = (2, 3)
  /\ (ADCChannel.lower_index 6 60, ADCChannel.upper_index 6 60) = (3, 1).
Proof. repeat split; vm_compute; reflexivity. Qed.

(** In a sorted vector a larger index holds a larger value. *)
Lemma sorted_at_index_mono (s : list Z) :
  Sorted Z.le s ->
  forall i j, (i <= j < List.length s)%nat -> nth i s 0 <= nth j s 0.
Proof.
  intros Hs. apply Sorted_StronglySorted in Hs;
    [|intros x y z; apply Z.le_trans].
  induction Hs as [|x s Hs IH Hall]; intros i j Hij; simpl in Hij; [lia|].
  destruct i as [|i], j as [|j]; simpl; try lia.
  - rewrite Forall_forall in Hall. apply Hall, nth_In. lia.
  - apply IH. lia.
Qed.

(* ================================================================== *)
(** ** [ADCChannel::read] *)

Lemma calls_cons (f : event -> bool) (e : event) (tr : trace) :
  calls f (e :: tr) = if f e then S (calls f tr) else calls f tr.
Proof. unfold calls. simpl. now destruct (f e). Qed.

Lemma samples_S (drv : Driver) (c : ADCChannel.t) (k0 n : nat) :
  samples drv c k0 (S n) =
    adc_cali_raw_to_voltage drv (ADCChannel._cali_handle c)
      (snd (drv_oneshot_read drv k0))
    :: samples drv c (S k0) n.
Proof.
  unfold samples. simpl. rewrite Nat.add_0_r. f_equal.
  rewrite <- seq_shift, map_map. apply map_ext. intros i.
  now rewrite Nat.add_succ_r.
Qed.

Lemma samples_length (drv : Driver) (c : ADCChannel.t) (k0 n : nat) :
  List.length (samples drv c k0 n) = n.
Proof. unfold samples. now rewrite length_map, length_seq. Qed.

(** A run of the loop in which every read succeeds. *)
Lemma read_loop_ok (drv : Driver) (c : ADCChannel.t) (delay : Z) (m : nat) :
  forall (a : ADCChannel.acc) (tr : trace),
  (forall i, (i < m)%nat ->
     fst (drv_oneshot_read drv (calls is_oneshot_read tr + i)) = ESP_OK) ->
  exists tr',
    ADCChannel.read_loop drv c delay m a tr =
      inr (fold_left ADCChannel.push_sample
             (samples drv c (calls is_oneshot_read tr) m) a, tr')
    /\ calls is_oneshot_read tr' = (calls is_oneshot_read tr + m)%nat.
Proof.
  induction m as [|m IH]; intros a tr Hok.
  - exists tr. simpl. split; [reflexivity|lia].
  - simpl ADCChannel.read_loop. unfold adc_oneshot_read.
    pose proof (Hok 0%nat ltac:(lia)) as H0. rewrite Nat.add_0_r in H0.
    destruct (drv_oneshot_read drv (calls is_oneshot_read tr))
      as [err raw] eqn:E.
    simpl in H0. subst err. simpl negb. cbv iota.
    set (tr1 := if delay >? 0 then _ else _).
    assert (Hc : calls is_oneshot_read tr1 = S (calls is_oneshot_read tr)).
    { subst tr1. unfold vTaskDelay.
      destruct (delay >? 0); rewrite !calls_cons; reflexivity. }
    destruct (IH (ADCChannel.push_sample a
                    (adc_cali_raw_to_voltage drv (ADCChannel._cali_handle c)
                       raw)) tr1) as [tr' [Hr Hn]].
    { intros i Hi. rewrite Hc.
      replace (S (calls is_oneshot_read tr) + i)%nat
        with (calls is_oneshot_read tr + S i)%nat by lia.
      apply Hok. lia. }
    exists tr'. split.
    + rewrite Hr, Hc, samples_S, E. reflexivity.
    + rewrite Hn, Hc. lia.
Qed.

(** A run of the loop whose read number [k] (from 0) is the first to
    fail. *)
Lemma read_loop_fail (drv : Driver) (c : ADCChannel.t) (delay : Z)
  (e : esp_err_t) (k : nat) :
  forall (m : nat) (a : ADCChannel.acc) (tr : trace),
  (k < m)%nat ->
  (forall i, (i < k)%nat ->
     fst (drv_oneshot_read drv (calls is_oneshot_read tr + i)) = ESP_OK) ->
  fst (drv_oneshot_read drv (calls is_oneshot_read tr + k)) = e ->
  e <> ESP_OK ->
  exists tr',
    ADCChannel.read_loop drv c delay m a tr = inl (e, tr')
    /\ calls is_oneshot_read tr' = (calls is_oneshot_read tr + S k)%nat.
Proof.
  induction k as [|k IH]; intros m a tr Hk Hok He Hne;
    (destruct m as [|m]; [lia|]);
    simpl ADCChannel.read_loop; unfold adc_oneshot_read.
  - rewrite Nat.add_0_r in He.
    destruct (drv_oneshot_read drv (calls is_oneshot_read tr))
      as [err raw] eqn:E.
    simpl in He. subst err.
    destruct (Z.eqb_spec e ESP_OK); [contradiction|]. simpl.
    eexists. split; [reflexivity|].
    unfold ESP_LOGE. rewrite !calls_cons. simpl. lia.
  - pose proof (Hok 0%nat ltac:(lia)) as H0. rewrite Nat.add_0_r in H0.
    destruct (drv_oneshot_read drv (calls is_oneshot_read tr))
      as [err raw] eqn:E.
    simpl in H0. subst err. simpl negb. cbv iota.
    set (tr1 := if delay >? 0 then _ else _).
    assert (Hc : calls is_oneshot_read tr1 = S (calls is_oneshot_read tr)).
    { subst tr1. unfold vTaskDelay.
      destruct (delay >? 0); rewrite !calls_cons; reflexivity. }
    destruct (IH m (ADCChannel.push_sample a
                      (adc_cali_raw_to_voltage drv
                         (ADCChannel._cali_handle c) raw)) tr1)
      as [tr' [Hr Hn]]; try assumption.
    + lia.
    + intros i Hi. rewrite Hc.
      replace (S (calls is_oneshot_read tr) + i)%nat
        with (calls is_oneshot_read tr + S i)%nat by lia.
      apply Hok. lia.
    + rewrite Hc.
      replace (S (calls is_oneshot_read tr) + k)%nat
        with (calls is_oneshot_read tr + S k)%nat by lia.
      exact He.
    + exists tr'. split; [exact Hr|]. rewrite Hn, Hc. lia.
Qed.

(** C2: when the k-th single-shot read (1 <= k <= sampleCount) is the
    first to fail, [read] stops there (exactly [k] reads were issued),
    returns the driver's code and hands back the caller's [result]
    untouched, whatever the delay. *)
Theorem read_failure_leaves_result (drv : Driver) (c : ADCChannel.t)
  (sample_count sample_delay_ms : Z) (result : ADCReadResult) (tr : trace)
  (k : nat) (e : esp_err_t) :
  1 <= sample_count ->
  (1 <= k <= Z.to_nat sample_count)%nat ->
  (forall i, (i < k - 1)%nat ->
     fst (drv_oneshot_read drv (calls is_oneshot_read tr + i)) = ESP_OK) ->
  fst (drv_oneshot_read drv (calls is_oneshot_read tr + (k - 1))) = e ->
  e <> ESP_OK ->
  exists tr',
    ADCChannel.read drv c sample_count sample_delay_ms result tr
      = Some (e, result, tr')
    /\ calls is_oneshot_read tr' = (calls is_oneshot_read tr + k)%nat.
Proof.
  intros Hn Hk Hok He Hne. unfold ADCChannel.read.
  destruct (Z.leb_spec sample_count 0); [lia|].
  destruct (read_loop_fail drv c sample_delay_ms e (k - 1)
              (Z.to_nat sample_count)
              (ADCChannel.mkAcc [] 0 INT32_MAX INT32_MIN) tr)
    as [tr' [Hr Hc]]; try assumption; [lia|].
  rewrite Hr. exists tr'. split; [reflexivity|]. rewrite Hc. lia.
Qed.

Lemma read_failure_leaves_result_witness :
  exists tr',
    ADCChannel.read third_read_fails channel0 5 10 (mkResult 1 2 3 4 5) []
      = Some (ESP_ERR_TIMEOUT, mkResult 1 2 3 4 5, tr')
    /\ calls is_oneshot_read tr' = 3%nat.
Proof.
  apply (read_failure_leaves_result third_read_fails channel0 5 10
           (mkResult 1 2 3 4 5) [] 3 ESP_ERR_TIMEOUT).
  - lia.
  - simpl. lia.
  - intros i Hi. simpl in Hi.
    destruct i as [|[|i]]; [reflexivity|reflexivity|lia].
  - reflexivity.
  - discriminate.
Defined.

Lemma fold_push_voltages (vs : list Z) :
  forall a, ADCChannel.acc_voltages (fold_left ADCChannel.push_sample vs a)
            = ADCChannel.acc_voltages a ++ vs.
Proof.
  induction vs as [|v vs IH]; intros a; simpl.
  - now rewrite app_nil_r.
  - rewrite IH. simpl. now rewrite <- app_assoc.
Qed.

Lemma fold_push_sum (vs : list Z) :
  forall a, 0 <= ADCChannel.acc_sum a < 2 ^ 32 ->
  ADCChannel.acc_sum (fold_left ADCChannel.push_sample vs a)
  = wrap_u32 (ADCChannel.acc_sum a + sum_list vs).
Proof.
  induction vs as [|v vs IH]; intros a Ha; simpl.
  - unfold wrap_u32. rewrite Z.add_0_r. symmetry. now apply Z.mod_small.
  - rewrite IH; simpl.
    + unfold wrap_u32. rewrite Zplus_mod_idemp_l. f_equal. lia.
    + unfold wrap_u32. apply Z.mod_pos_bound. lia.
Qed.

Lemma fold_push_min (vs : list Z) :
  forall a, let m := ADCChannel.acc_min (fold_left ADCChannel.push_sample vs a) in
  (m = ADCChannel.acc_min a \/ In m vs)
  /\ m <= ADCChannel.acc_min a /\ Forall (fun v => m <= v) vs.
Proof.
  induction vs as [|v vs IH]; intros a; simpl.
  - repeat split; auto; lia.
  - destruct (IH (ADCChannel.push_sample a v)) as [Hin [Hle Hall]].
    simpl in Hin, Hle.
    destruct (Z.ltb_spec v (ADCChannel.acc_min a)).
    + repeat split.
      * destruct Hin as [Hin|Hin]; [right; left; now symmetry|auto].
      * lia.
      * constructor; [lia|assumption].
    + repeat split.
      * destruct Hin as [Hin|Hin]; auto.
      * lia.
      * constructor; [lia|assumption].
Qed.

Lemma fold_push_max (vs : list Z) :
  forall a, let m := ADCChannel.acc_max (fold_left ADCChannel.push_sample vs a) in
  (m = ADCChannel.acc_max a \/ In m vs)
  /\ ADCChannel.acc_max a <= m /\ Forall (fun v => v <= m) vs.
Proof.
  induction vs as [|v vs IH]; intros a; simpl.
  - repeat split; auto; lia.
  - destruct (IH (ADCChannel.push_sample a v)) as [Hin [Hle Hall]].
    simpl in Hin, Hle.
    destruct (Z.gtb_spec v (ADCChannel.acc_max a)).
    + repeat split.
      * destruct Hin as [Hin|Hin]; [right; left; now symmetry|auto].
      * lia.
      * constructor; [lia|assumption].
    + repeat split.
      * destruct Hin as [Hin|Hin]; auto.
      * lia.
      * constructor; [lia|assumption].
Qed.

Lemma sum_list_bounds (vs : list Z) (lo hi : Z) :
  Forall (fun v => lo <= v <= hi) vs ->
  lo * Z.of_nat (List.length vs) <= sum_list vs
    <= hi * Z.of_nat (List.length vs).
Proof.
  induction 1 as [|v vs Hv _ IH]; simpl List.length; simpl sum_list.
  - lia.
  - rewrite Nat2Z.inj_succ. lia.
Qed.

Lemma sum_list_constant (vs : list Z) (V : Z) :
  Forall (eq V) vs -> sum_list vs = V * Z.of_nat (List.length vs).
Proof.
  induction 1 as [|v vs Hv _ IH]; simpl List.length; simpl sum_list.
  - lia.
  - rewrite Nat2Z.inj_succ, IH. subst v. lia.
Qed.

(** The second width of [read] is taken on the vector the first call
    sorted; that does not change it. *)
Lemma calculatePercWidth_after_sort (data : list Z) (p q : Z) :
  fst (ADCChannel.calculatePercWidth
         (snd (ADCChannel.calculatePercWidth data p)) q)
  = fst (ADCChannel.calculatePercWidth data q).
Proof.
  destruct data as [|x data].
  { rewrite (calculatePercWidth_guards [] p) by auto. reflexivity. }
  destruct (Z.ltb_spec p 10).
  { rewrite (calculatePercWidth_guards _ p) by auto. reflexivity. }
  destruct (Z.ltb_spec 90 p).
  { rewrite (calculatePercWidth_guards _ p) by lia. reflexivity. }
  rewrite (calculatePercWidth_in_range (x :: data) p) by (congruence || lia).
  cbv zeta. cbn [snd].
  destruct (Z.ltb_spec q 10).
  { now rewrite !(calculatePercWidth_guards _ q) by auto. }
  destruct (Z.ltb_spec 90 q).
  { now rewrite !(calculatePercWidth_guards _ q) by lia. }
  assert (Hne : std_sort (x :: data) <> []).
  { intros E. apply (f_equal (@List.length Z)) in E.
    rewrite std_sort_length in E. discriminate. }
  rewrite (calculatePercWidth_in_range _ q Hne) by lia.
  rewrite (calculatePercWidth_in_range (x :: data) q) by (congruence || lia).
  cbv zeta. now rewrite std_sort_idempotent, std_sort_length.
Qed.

Lemma at_index_constant (l : list Z) (V i : Z) :
  Forall (eq V) l -> i <= Z.of_nat (List.length l) - 1 -> l <> [] ->
  at_index l i = V.
Proof.
  intros Hall Hi Hne. unfold at_index.
  rewrite Forall_forall in Hall. symmetry. apply Hall, nth_In.
  destruct l; [congruence|]. simpl List.length in *. lia.
Qed.

Lemma calculatePercWidth_constant (data : list Z) (V p : Z) :
  Forall (eq V) data -> fst (ADCChannel.calculatePercWidth data p) = 0.
Proof.
  intros Hall.
  destruct data as [|x data].
  { now rewrite (calculatePercWidth_guards [] p) by auto. }
  destruct (Z.ltb_spec p 10).
  { now rewrite (calculatePercWidth_guards _ p) by auto. }
  destruct (Z.ltb_spec 90 p).
  { now rewrite (calculatePercWidth_guards _ p) by lia. }
  rewrite (calculatePercWidth_in_range (x :: data) p) by (congruence || lia).
  cbv zeta. cbn [fst].
  assert (Hs : Forall (eq V) (std_sort (x :: data))).
  { rewrite Forall_forall in *. intros v Hv. apply Hall.
    eapply Permutation_in; [apply Permutation_sym, std_sort_perm|exact Hv]. }
  assert (Hne : std_sort (x :: data) <> []).
  { intros E. apply (f_equal (@List.length Z)) in E.
    rewrite std_sort_length in E. discriminate. }
  rewrite !(at_index_constant _ V); try assumption;
    rewrite ?std_sort_length; try lia.
  now rewrite Z.sub_diag.
Qed.

(** C6 (amended): when all [sampleCount] reads succeed, [read] returns
    [ESP_OK] with the minimum and the maximum of the calibrated samples
    ([int]s, of either sign) and the percentile widths at 30 and 60 of
    the whole sample set, and with the truncated average
    [sum / sampleCount] whenever the sum of the samples lies in
    [0 .. 2^32 - 1] (the accumulator is a [uint32_t]).  With a constant
    sample [V] minimum and maximum are [V] and both widths 0, and the
    average is [V] when [0 <= sampleCount * V < 2^32]. *)
Theorem read_success_statistics (drv : Driver) (c : ADCChannel.t)
  (sample_count sample_delay_ms : Z) (result : ADCReadResult) (tr : trace) :
  1 <= sample_count <= INT32_MAX ->
  let n := Z.to_nat sample_count in
  let vs := samples drv c (calls is_oneshot_read tr) n in
  (forall i, (i < n)%nat ->
     fst (drv_oneshot_read drv (calls is_oneshot_read tr + i)) = ESP_OK) ->
  Forall (fun v => INT32_MIN <= v <= INT32_MAX) vs ->
  exists r tr',
    ADCChannel.read drv c sample_count sample_delay_ms result tr
      = Some (ESP_OK, r, tr')
    /\ (0 <= sum_list vs < 2 ^ 32 ->
        average_mv r = sum_list vs / sample_count)
    /\ In (min_mv r) vs /\ Forall (fun v => min_mv r <= v) vs
    /\ In (max_mv r) vs /\ Forall (fun v => v <= max_mv r) vs
    /\ p30_width_mv r = fst (ADCChannel.calculatePercWidth vs 30)
    /\ p60_width_mv r = fst (ADCChannel.calculatePercWidth vs 60)
    /\ (forall V, Forall (eq V) vs ->
        min_mv r = V /\ max_mv r = V
        /\ p30_width_mv r = 0 /\ p60_width_mv r = 0
        /\ (0 <= sample_count * V < 2 ^ 32 -> average_mv r = V)).
Proof.
  intros Hn n vs Hok Hrange.
  unfold ADCChannel.read.
  destruct (Z.leb_spec sample_count 0); [lia|].
  destruct (read_loop_ok drv c sample_delay_ms n
              (ADCChannel.mkAcc [] 0 INT32_MAX INT32_MIN) tr Hok)
    as [tr' [Hr _]].
  fold n. rewrite Hr. fold vs.
  set (a := fold_left ADCChannel.push_sample vs _).
  assert (Hv : ADCChannel.acc_voltages a = vs)
    by (subst a; now rewrite fold_push_voltages).
  assert (Hlen : Z.of_nat (List.length vs) = sample_count)
    by (subst vs n; rewrite samples_length; lia).
  assert (Hne : vs <> []).
  { intros E. rewrite E in Hlen. simpl in Hlen. lia. }
  pose proof (sum_list_bounds vs INT32_MIN INT32_MAX Hrange) as Hsb.
  rewrite Hlen in Hsb.
  assert (Hs : ADCChannel.acc_sum a = wrap_u32 (sum_list vs)).
  { subst a. now rewrite fold_push_sum by (simpl; lia). }
  assert (Havg : 0 <= sum_list vs < 2 ^ 32 ->
                 to_int32 (ADCChannel.acc_sum a / wrap_u32 sample_count)
                 = sum_list vs / sample_count).
  { intros Hsum. rewrite Hs. unfold wrap_u32, INT32_MAX in *.
    rewrite (Z.mod_small (sum_list vs)) by lia.
    rewrite (Z.mod_small sample_count) by lia.
    assert (0 <= sum_list vs / sample_count <= 2147483647).
    { split; [apply Z.div_pos; lia|].
      apply Z.div_le_upper_bound; lia. }
    unfold to_int32. rewrite Z.mod_small; lia. }
  destruct (fold_push_min vs (ADCChannel.mkAcc [] 0 INT32_MAX INT32_MIN))
    as [Hmin_in [_ Hmin_all]].
  destruct (fold_push_max vs (ADCChannel.mkAcc [] 0 INT32_MAX INT32_MIN))
    as [Hmax_in [_ Hmax_all]].
  fold a in Hmin_in, Hmin_all, Hmax_in, Hmax_all. simpl in Hmin_in, Hmax_in.
  assert (Hmin : In (ADCChannel.acc_min a) vs).
  { destruct Hmin_in as [E|]; [|assumption].
    destruct vs as [|v vs']; [congruence|].
    inversion Hrange; subst. inversion Hmin_all; subst.
    left. lia. }
  assert (Hmax : In (ADCChannel.acc_max a) vs).
  { destruct Hmax_in as [E|]; [|assumption].
    destruct vs as [|v vs']; [congruence|].
    inversion Hrange; subst. inversion Hmax_all; subst.
    left. lia. }
  rewrite Hv.
  destruct (ADCChannel.calculatePercWidth vs 30) as [p30 sorted] eqn:E30.
  destruct (ADCChannel.calculatePercWidth sorted 60) as [p60 sorted'] eqn:E60.
  assert (H60 : p60 = fst (ADCChannel.calculatePercWidth vs 60)).
  { rewrite <- (calculatePercWidth_after_sort vs 30 60), E30. cbn [snd].
    now rewrite E60. }
  eexists. exists tr'. split; [reflexivity|]. cbn [average_mv min_mv max_mv
    p30_width_mv p60_width_mv].
  split; [exact Havg|].
  do 6 (split; [assumption || reflexivity|]).
  intros V HV. rewrite H60.
  rewrite (calculatePercWidth_constant vs V 60 HV).
  pose proof (calculatePercWidth_constant vs V 30 HV) as H30.
  rewrite E30 in H30. cbn [fst] in H30.
  rewrite Forall_forall in HV.
  split; [symmetry; now apply HV|]. split; [symmetry; now apply HV|].
  split; [exact H30|]. split; [reflexivity|].
  intros HnV.
  assert (Hsum : sum_list vs = V * sample_count).
  { rewrite (sum_list_constant vs V) by (now apply Forall_forall).
    now rewrite Hlen. }
  rewrite Havg by (rewrite Hsum; lia).
  rewrite Hsum. apply Z.div_mul. lia.
Qed.

Lemma read_success_statistics_witness :
  exists r tr',
    ADCChannel.read steady_driver channel0 5 0 zero_result []
      = Some (ESP_OK, r, tr')
    /\ samples steady_driver channel0 0 5 = [100; 200; 300; 400; 500]
    /\ average_mv r = 300 /\ min_mv r = 100 /\ max_mv r = 500
    /\ p30_width_mv r = 100 /\ p60_width_mv r = -100
    /\ percWidth_exact [100; 200; 300; 400; 500] 30 = 100
    /\ percWidth_exact [100; 200; 300; 400; 500] 60 = -100.
Proof.
  assert (H1 : 1 <= 5 <= INT32_MAX) by (unfold INT32_MAX; lia).
  assert (H2 : forall i, (i < Z.to_nat 5)%nat ->
            fst (drv_oneshot_read steady_driver
                   (calls is_oneshot_read [] + i)) = ESP_OK)
    by (intros; reflexivity).
  assert (H3 : Forall (fun v => INT32_MIN <= v <= INT32_MAX)
                 (samples steady_driver channel0
                    (calls is_oneshot_read []) (Z.to_nat 5)))
    by (repeat constructor; discriminate).
  destruct (read_success_statistics steady_driver channel0 5 0 zero_result []
              H1 H2 H3)
    as [r [tr' [Hr [Havg [Hmin [Hmin' [Hmax [Hmax' [H30 [H60 _]]]]]]]]]].
  exists r, tr'. split; [exact Hr|].
  change (samples steady_driver channel0 (calls is_oneshot_read [])
            (Z.to_nat 5)) with [100; 200; 300; 400; 500] in *.
  assert (Hsum : 0 <= sum_list [100; 200; 300; 400; 500] < 2 ^ 32)
    by (split; [discriminate|reflexivity]).
  split; [reflexivity|].
  split; [rewrite (Havg Hsum); reflexivity|].
  split.
  { inversion Hmin' as [|? ? Hle _]; subst. simpl in Hmin. lia. }
  split.
  { rewrite !Forall_forall in Hmax'.
    assert (Hin : In 500 [100; 200; 300; 400; 500]) by (simpl; tauto).
    pose proof (Hmax' 500 Hin). simpl in Hmax. lia. }
  split; [rewrite H30; reflexivity|].
  split; [rewrite H60; reflexivity|].
  split; reflexivity.
Defined.

(** C6, counterexample: two samples of -5 mV.  Their sum divided by two,
    truncated, is -5; the [uint32_t] accumulator makes the average
    2147483643. *)
Lemma read_average_wraps_on_negative_samples :
  samples negative_samples channel0 0 2 = [-5; -5]
  /\ Z.quot (sum_list [-5; -5]) 2 = -5
  /\ option_map (fun x => snd (fst x))
       (ADCChannel.read negative_samples channel0 2 0 zero_result [])
     = Some (mkResult 2147483643 (-5) (-5) 0 0).
Proof. repeat split; vm_compute; reflexivity. Qed.

(* ================================================================== *)
(** ** [ADCUnit]: the streaming handle *)

Lemma ensure_cached (drv : Driver) (u : ADCUnit.t) (tr : trace) :
  ADCUnit._continuous_initialized u = true ->
  ADCUnit.ensureContinuousInitialized drv u tr = (ESP_OK, u, tr).
Proof.
  intros H. unfold ADCUnit.ensureContinuousInitialized. now rewrite H.
Qed.

Lemma getContinuousHandle_cached (drv : Driver) (u : ADCUnit.t) (tr : trace) :
  ADCUnit._continuous_initialized u = true ->
  ADCUnit.getContinuousHandle drv u tr = (ADCUnit._cont_handle u, u, tr).
Proof.
  intros H. unfold ADCUnit.getContinuousHandle.
  now rewrite (ensure_cached drv u tr H).
Qed.

(** The three ways a provisioning attempt on a unit without streaming
    handle ends. *)
Lemma ensure_fresh (drv : Driver) (u : ADCUnit.t) (tr : trace) :
  ADCUnit._continuous_initialized u = false ->
  let k := calls is_cont_new_handle tr in
  let e1 := fst (drv_cont_new_handle drv k) in
  let h := snd (drv_cont_new_handle drv k) in
  let e2 := drv_cont_config drv (calls is_cont_config tr) in
  (e1 <> ESP_OK
   /\ ADCUnit.ensureContinuousInitialized drv u tr
      = (e1, u, EvContNewHandle e1 h :: tr))
  \/ (e1 = ESP_OK /\ e2 <> ESP_OK
      /\ ADCUnit.ensureContinuousInitialized drv u tr
         = (e2,
            ADCUnit.mk (ADCUnit._is_initialized u) (ADCUnit._unit_id u) h
              false (ADCUnit._oneshot_handle u),
            EvContDeinit h :: EvContConfig h e2
              :: EvContNewHandle ESP_OK h :: tr))
  \/ (e1 = ESP_OK /\ e2 = ESP_OK
      /\ ADCUnit.ensureContinuousInitialized drv u tr
         = (ESP_OK,
            ADCUnit.mk (ADCUnit._is_initialized u) (ADCUnit._unit_id u) h
              true (ADCUnit._oneshot_handle u),
            EvContConfig h ESP_OK :: EvContNewHandle ESP_OK h :: tr)).
Proof.
  intros Hf k e1 h e2. subst k e1 h e2.
  unfold ADCUnit.ensureContinuousInitialized, adc_continuous_new_handle,
    adc_continuous_config, adc_continuous_deinit.
  rewrite Hf.
  destruct (drv_cont_new_handle drv (calls is_cont_new_handle tr))
    as [e1 h].
  cbn [fst snd ADCUnit._cont_handle ADCUnit._is_initialized
       ADCUnit._unit_id ADCUnit._continuous_initialized
       ADCUnit._oneshot_handle].
  destruct (Z.eqb_spec e1 ESP_OK) as [->|Hne1]; cbn [negb].
  - rewrite calls_cons. cbn [is_cont_config].
    destruct (Z.eqb_spec (drv_cont_config drv (calls is_cont_config tr))
                ESP_OK) as [E2|Hne2]; cbn [negb].
    + right; right. rewrite E2. auto.
    + right; left. auto.
  - left. auto.
Qed.

Lemma after_calls_cached (drv : Driver) (k : nat) (u : ADCUnit.t)
  (tr : trace) :
  ADCUnit._continuous_initialized u = true ->
  after_calls drv k u tr = (u, tr).
Proof.
  intros H. induction k as [|k IH]; simpl; [reflexivity|].
  now rewrite (getContinuousHandle_cached drv u tr H).
Qed.

(** One call completes at most one provisioning, and exactly when it
    turns the flag on. *)
Lemma getContinuousHandle_provisioning (drv : Driver) (u : ADCUnit.t)
  (tr : trace) :
  let '(_, u1, tr1) := ADCUnit.getContinuousHandle drv u tr in
  calls is_provisioning tr1 =
    (calls is_provisioning tr
     + if ADCUnit._continuous_initialized u then 0
       else if ADCUnit._continuous_initialized u1 then 1 else 0)%nat
  /\ (ADCUnit._continuous_initialized u = true ->
      ADCUnit._continuous_initialized u1 = true).
Proof.
  destruct (ADCUnit._continuous_initialized u) eqn:Hf.
  - rewrite (getContinuousHandle_cached drv u tr Hf). rewrite Hf.
    split; [lia|auto].
  - unfold ADCUnit.getContinuousHandle.
    destruct (ensure_fresh drv u tr Hf)
      as [[Hne E]|[[H1 [Hne E]]|[H1 [H2 E]]]]; rewrite E.
    + destruct (Z.eqb_spec (fst (drv_cont_new_handle drv
                                   (calls is_cont_new_handle tr))) ESP_OK);
        [contradiction|].
      rewrite Hf, calls_cons. simpl. split; [lia|discriminate].
    + destruct (Z.eqb_spec (drv_cont_config drv (calls is_cont_config tr))
                  ESP_OK); [contradiction|].
      rewrite !calls_cons. cbn [is_provisioning ADCUnit._continuous_initialized].
      destruct (Z.eqb_spec (drv_cont_config drv (calls is_cont_config tr))
                  ESP_OK); [contradiction|].
      simpl. split; [lia|discriminate].
    + simpl. rewrite !calls_cons. simpl. split; [lia|discriminate].
Qed.




Lemma incl_remove (h : handle) (l : list handle) :
  incl (remove Z.eq_dec h l) l.
Proof. intros x Hx. now apply in_remove in Hx. Qed.

(** C5 (amended): a failed provisioning attempt either allocated nothing
    or released the handle it had allocated, reports the driver's code
    (and [getContinuousHandle] a null handle) and leaves the single-shot
    side of the unit as it was; the unit stays unprovisioned, so the next
    call asks the driver for a handle again and succeeds if the driver
    then does. *)
Theorem ensureContinuousInitialized_failure (drv : Driver) (u u' : ADCUnit.t)
  (tr tr' : trace) (err : esp_err_t) :
  ADCUnit.ensureContinuousInitialized drv u tr = (err, u', tr') ->
  err <> ESP_OK ->
  (exists h,
     tr' = EvContNewHandle err h :: tr
     \/ tr' = EvContDeinit h :: EvContConfig h err
                :: EvContNewHandle ESP_OK h :: tr)
  /\ incl (live_cont_handles tr') (live_cont_handles tr)
  /\ fst (fst (ADCUnit.getContinuousHandle drv u tr)) = nullptr
  /\ ADCUnit._oneshot_handle u' = ADCUnit._oneshot_handle u
  /\ ADCUnit._is_initialized u' = ADCUnit._is_initialized u
  /\ ADCUnit._unit_id u' = ADCUnit._unit_id u
  /\ ADCUnit._continuous_initialized u' = false
  /\ (forall tr2,
        let k := calls is_cont_new_handle tr2 in
        let '(err2, u2, tr2') :=
          ADCUnit.ensureContinuousInitialized drv u' tr2 in
        calls is_cont_new_handle tr2' = S k
        /\ (fst (drv_cont_new_handle drv k) = ESP_OK ->
            drv_cont_config drv (calls is_cont_config tr2) = ESP_OK ->
            err2 = ESP_OK
            /\ ADCUnit._continuous_initialized u2 = true
            /\ ADCUnit._cont_handle u2 = snd (drv_cont_new_handle drv k))).
Proof.
  intros E Hne.
  assert (Hf : ADCUnit._continuous_initialized u = false).
  { destruct (ADCUnit._continuous_initialized u) eqn:Hf; [|reflexivity].
    rewrite (ensure_cached drv u tr Hf) in E. inversion E; subst.
    congruence. }
  assert (Hnull : fst (fst (ADCUnit.getContinuousHandle drv u tr)) = nullptr).
  { unfold ADCUnit.getContinuousHandle. rewrite E.
    now destruct (Z.eqb_spec err ESP_OK). }
  assert (Hnext : forall u1, ADCUnit._continuous_initialized u1 = false ->
            forall tr2,
            let k := calls is_cont_new_handle tr2 in
            let '(err2, u2, tr2') :=
              ADCUnit.ensureContinuousInitialized drv u1 tr2 in
            calls is_cont_new_handle tr2' = S k
            /\ (fst (drv_cont_new_handle drv k) = ESP_OK ->
                drv_cont_config drv (calls is_cont_config tr2) = ESP_OK ->
                err2 = ESP_OK
                /\ ADCUnit._continuous_initialized u2 = true
                /\ ADCUnit._cont_handle u2
                   = snd (drv_cont_new_handle drv k))).
  { intros u1 Hf1 tr2 k.
    destruct (ensure_fresh drv u1 tr2 Hf1)
      as [[Hn1 E1]|[[H1 [Hn2 E1]]|[H1 [H2 E1]]]]; rewrite E1;
      rewrite !calls_cons; cbn [is_cont_new_handle]; subst k;
      (split; [reflexivity|]); intros; try contradiction.
    simpl. auto. }
  destruct (ensure_fresh drv u tr Hf)
    as [[Hn1 E1]|[[H1 [Hn2 E1]]|[H1 [H2 E1]]]];
    rewrite E1 in E; inversion E; subst; clear E.
  - split; [eexists; left; reflexivity|].
    split.
    { simpl.
      destruct (Z.eqb_spec (fst (drv_cont_new_handle drv
                                   (calls is_cont_new_handle tr))) ESP_OK);
        [contradiction|]. apply incl_refl. }
    repeat (split; [assumption || reflexivity|]).
    apply Hnext. assumption.
  - split; [eexists; right; reflexivity|].
    split.
    { simpl. destruct (Z.eq_dec _ _); [|congruence]. apply incl_remove. }
    repeat (split; [assumption || reflexivity|]).
    apply Hnext. reflexivity.
  - congruence.
Qed.

Lemma ensureContinuousInitialized_failure_witness :
  exists u' tr',
    ADCUnit.ensureContinuousInitialized first_config_fails unit0 []
      = (ESP_ERR_INVALID_ARG, u', tr')
    /\ live_cont_handles tr' = []
    /\ ADCUnit._oneshot_handle u' = ADCUnit._oneshot_handle unit0
    /\ ADCUnit._continuous_initialized u' = false.
Proof.
  destruct (ADCUnit.ensureContinuousInitialized first_config_fails unit0 [])
    as [[err u'] tr'] eqn:E.
  assert (Herr : err = ESP_ERR_INVALID_ARG)
    by (vm_compute in E; now inversion E).
  subst err. exists u', tr'. split; [reflexivity|].
  assert (Hne : ESP_ERR_INVALID_ARG <> ESP_OK) by discriminate.
  destruct (ensureContinuousInitialized_failure _ _ _ _ _ _ E Hne)
    as [_ [Hlive [_ [Hone [_ [_ [Hflag _]]]]]]].
  split; [|split; assumption].
  simpl in Hlive. destruct (live_cont_handles tr') as [|x l];
    [reflexivity|]. exfalso. apply (Hlive x). now left.
Defined.

(** C5, counterexample: the first configuration is refused and the call
    returns null; the very next call provisions the unit and returns
    handle 17. *)
Lemma streaming_failure_is_retried :
  let '(h1, u1, tr1) :=
    ADCUnit.getContinuousHandle first_config_fails unit0 [] in
  let '(h2, u2, tr2) :=
    ADCUnit.getContinuousHandle first_config_fails u1 tr1 in
  h1 = nullptr /\ ADCUnit._continuous_initialized u1 = false
  /\ h2 = 17 /\ h2 <> nullptr
  /\ ADCUnit._continuous_initialized u2 = true
  /\ calls is_cont_new_handle tr2 = 2%nat.
Proof. vm_compute. repeat split; discriminate. Qed.

(* ================================================================== *)
(** ** [ADCChannel::sampleForDuration] *)

Lemma byte_val_range (b : byte) : 0 <= byte_val b < 256.
Proof.
  unfold byte_val. pose proof (Byte.to_N_bounded b). lia.
Qed.

Lemma lor_shifted_byte (hi lo : Z) :
  0 <= lo < 256 -> Z.lor (Z.shiftl hi 8) lo = hi * 256 + lo.
Proof.
  intros Hlo. rewrite Z.shiftl_mul_pow2 by lia.
  change (2 ^ 8) with 256.
  assert (Hland : Z.land (hi * 256) lo = 0).
  { apply Z.bits_inj'. intros n Hn.
    rewrite Z.land_spec, Z.bits_0.
    destruct (Z.lt_ge_cases n 8).
    - change 256 with (2 ^ 8). rewrite Z.mul_pow2_bits_low by lia.
      reflexivity.
    - rewrite <- (Z.mod_small lo (2 ^ 8)) by (change (2 ^ 8) with 256; lia).
      rewrite Z.mod_pow2_bits_high by lia. apply andb_false_r. }
  rewrite <- Z.lxor_lor by assumption.
  symmetry. now apply Z.add_nocarry_lxor.
Qed.

Lemma raw_reading_value (lo hi : byte) :
  ADCChannel.raw_reading lo hi = byte_val lo + 256 * (byte_val hi mod 16).
Proof.
  unfold ADCChannel.raw_reading. fold (byte_val hi). fold (byte_val lo).
  pose proof (byte_val_range lo) as Hlo.
  pose proof (byte_val_range hi) as Hhi.
  rewrite lor_shifted_byte by assumption.
  change 0xFFF with (Z.ones 12). rewrite Z.land_ones by lia.
  change (2 ^ 12) with 4096.
  pose proof (Z.div_mod (byte_val hi) 16 ltac:(lia)) as Hd.
  pose proof (Z.mod_pos_bound (byte_val hi) 16 ltac:(lia)) as Hm.
  symmetry. apply Z.mod_unique with (q := byte_val hi / 16); lia.
Qed.

(** The calibrated value of the record that starts at index [i]. *)
Lemma decode_loop_spec (drv : Driver) (c : ADCChannel.t) (buffer : list byte)
  (bytes_read : nat) (fuel : nat) :
  forall (i : nat) (voltages : list Z),
  (Nat.div2 (bytes_read - i + 1) <= fuel)%nat ->
  ADCChannel.decode_loop drv c buffer bytes_read fuel i voltages =
    voltages ++
    map (fun k => adc_cali_raw_to_voltage drv (ADCChannel._cali_handle c)
                    (ADCChannel.raw_reading (nth (i + 2 * k) buffer x00)
                       (nth (i + 2 * k + 1) buffer x00)))
        (seq 0 (Nat.div2 (bytes_read - i + 1))).
Proof.
  induction fuel as [|fuel IH]; intros i voltages Hfuel.
  - assert (E : Nat.div2 (bytes_read - i + 1) = 0%nat)
      by (now apply Nat.le_0_r).
    rewrite E. simpl. now rewrite app_nil_r.
  - simpl ADCChannel.decode_loop.
    destruct (Nat.ltb_spec i bytes_read) as [Hlt|Hge].
    + assert (E : (bytes_read - i + 1 = S (S (bytes_read - i - 1)))%nat)
        by lia.
      assert (E' : Nat.div2 (bytes_read - (i + 2) + 1)
                   = Nat.div2 (bytes_read - i - 1)).
      { destruct (Nat.eq_dec bytes_read (S i)) as [->|Hn].
        - replace (S i - (i + 2) + 1)%nat with 1%nat by lia.
          replace (S i - i - 1)%nat with 0%nat by lia. reflexivity.
        - f_equal. lia. }
      rewrite E in Hfuel |- *. cbn [Nat.div2] in Hfuel |- *.
      rewrite IH by (rewrite E'; lia).
      rewrite E', <- app_assoc. f_equal.
      cbn [seq map app]. rewrite Nat.mul_0_r, Nat.add_0_r. f_equal.
      rewrite <- seq_shift, map_map. apply map_ext. intros k.
      replace (i + 2 + 2 * k)%nat with (i + 2 * S k)%nat by lia.
      reflexivity.
    + replace (bytes_read - i + 1)%nat with 1%nat by lia.
      simpl. now rewrite app_nil_r.
Qed.

Lemma div2_le (n : nat) : (Nat.div2 (n + 1) <= n)%nat.
Proof. rewrite Nat.add_1_r. apply Nat.le_div2. Qed.

(** What one pass of the loop body does, by the answer of the read. *)
Lemma poll_body_spec (drv : Driver) (c : ADCChannel.t) (buffer : list byte)
  (voltages : list Z) (tr : trace) :
  let k := calls is_cont_read tr in
  let ret := fst (drv_cont_read drv k) in
  let data := firstn 1024 (snd (drv_cont_read drv k)) in
  let buffer' := data ++ skipn (List.length data) buffer in
  ADCChannel.poll_body drv c buffer voltages tr =
    (buffer',
     (if ret =? ESP_OK then
        voltages ++
        map (fun k => adc_cali_raw_to_voltage drv (ADCChannel._cali_handle c)
                        (ADCChannel.raw_reading (nth (2 * k) buffer' x00)
                           (nth (2 * k + 1) buffer' x00)))
            (seq 0 (Nat.div2 (List.length data + 1)))
      else voltages),
     poll_warning drv k
       ++ EvContRead (ADCChannel._cont_handle c) ret data :: tr).
Proof.
  intros k ret data buffer'. subst k ret data buffer'.
  unfold ADCChannel.poll_body, adc_continuous_read, poll_warning.
  destruct (drv_cont_read drv (calls is_cont_read tr)) as [ret data].
  cbn [fst snd].
  destruct (Z.eqb_spec ret ESP_OK) as [->|Hne].
  - rewrite decode_loop_spec by (rewrite Nat.sub_0_r; apply div2_le).
    rewrite Nat.sub_0_r. reflexivity.
  - cbn [orb]. destruct (ret =? ESP_ERR_TIMEOUT); reflexivity.
Qed.

Lemma calls_app (f : event -> bool) (tr1 tr2 : trace) :
  calls f (tr1 ++ tr2) = (calls f tr1 + calls f tr2)%nat.
Proof. unfold calls. now rewrite filter_app, length_app. Qed.

Lemma poll_warning_calls (drv : Driver) (k : nat) (f : event -> bool) :
  (forall lvl msg, f (EvLog lvl msg) = false) ->
  calls f (poll_warning drv k) = 0%nat.
Proof.
  intros Hf. unfold poll_warning.
  destruct (_ || _); [reflexivity|].
  rewrite calls_cons, Hf. reflexivity.
Qed.

Lemma poll_warning_logs (drv : Driver) (k : nat) :
  logs (poll_warning drv k) = poll_warning drv k.
Proof. unfold poll_warning. now destruct (_ || _). Qed.

Lemma polls_S (drv : Driver) (c : ADCChannel.t) (m : nat)
  (buffer : list byte) (voltages : list Z) (tr : trace) :
  polls drv c (S m) (buffer, voltages, tr) =
    polls drv c m
      (ADCChannel.poll_body drv c buffer voltages
         (EvTimer (drv_timer drv (calls is_timer tr)) :: tr)).
Proof. reflexivity. Qed.

(** The clock alone decides how many passes the loop makes: with [m]
    readings inside the window and the next one outside, the loop makes
    [m] passes and stops, given fuel for them. *)
Lemma poll_loop_run (drv : Driver) (c : ADCChannel.t)
  (start_time duration_ms : Z) (m : nat) :
  forall (fuel : nat) (buffer : list byte) (voltages : list Z) (tr : trace),
  (forall i, (i < m)%nat ->
     ADCChannel.still_sampling (drv_timer drv (calls is_timer tr + i))
       start_time duration_ms = true) ->
  ADCChannel.still_sampling (drv_timer drv (calls is_timer tr + m))
    start_time duration_ms = false ->
  (m < fuel)%nat ->
  ADCChannel.poll_loop drv c start_time duration_ms fuel buffer voltages tr
  = Some (let '(buffer', voltages', tr') :=
            polls drv c m (buffer, voltages, tr) in
          (buffer', voltages',
           EvTimer (drv_timer drv (calls is_timer tr + m)) :: tr')).
Proof.
  induction m as [|m IH]; intros fuel buffer voltages tr Hin Hout Hfuel;
    (destruct fuel as [|fuel]; [lia|]);
    simpl ADCChannel.poll_loop; unfold esp_timer_get_time.
  - rewrite Nat.add_0_r in Hout. rewrite Hout. simpl.
    now rewrite Nat.add_0_r.
  - pose proof (Hin 0%nat ltac:(lia)) as H0. rewrite Nat.add_0_r in H0.
    rewrite H0, polls_S.
    set (tr0 := EvTimer (drv_timer drv (calls is_timer tr)) :: tr).
    pose proof (poll_body_spec drv c buffer voltages tr0) as Hb.
    cbv zeta in Hb.
    destruct (ADCChannel.poll_body drv c buffer voltages tr0)
      as [[buffer1 voltages1] tr1].
    assert (Hc : calls is_timer tr1 = S (calls is_timer tr)).
    { inversion Hb; subst tr1.
      rewrite calls_app, poll_warning_calls by reflexivity.
      subst tr0. rewrite !calls_cons. reflexivity. }
    rewrite (IH fuel buffer1 voltages1 tr1).
    + rewrite Hc.
      now replace (S (calls is_timer tr) + m)%nat
        with (calls is_timer tr + S m)%nat by lia.
    + intros i Hi. rewrite Hc.
      replace (S (calls is_timer tr) + i)%nat
        with (calls is_timer tr + S i)%nat by lia.
      apply Hin. lia.
    + rewrite Hc.
      now replace (S (calls is_timer tr) + m)%nat
        with (calls is_timer tr + S m)%nat by lia.
    + lia.
Qed.

(** On a frame of whole records the index walk of the decode loop visits
    exactly the consecutive byte pairs. *)
Lemma records_decode (g : byte -> byte -> Z) (n : nat) :
  forall (data rest : list byte),
  List.length data = (2 * n)%nat ->
  map (fun k => g (nth (2 * k) (data ++ rest) x00)
                  (nth (2 * k + 1) (data ++ rest) x00))
      (seq 0 (Nat.div2 (List.length data + 1)))
  = map (fun r => g (fst r) (snd r)) (records data).
Proof.
  induction n as [|n IH]; intros data rest Hlen.
  - destruct data; [reflexivity|discriminate].
  - destruct data as [|lo [|hi data]]; try (simpl in Hlen; lia).
    assert (Hlen' : List.length data = (2 * n)%nat)
      by (simpl in Hlen; lia).
    specialize (IH data rest Hlen').
    rewrite Hlen' in IH. rewrite Hlen.
    rewrite Nat.add_1_r, Nat.div2_succ_double in IH |- *.
    cbn [records map seq]. f_equal.
    rewrite <- IH, <- seq_shift, map_map. apply map_ext. intros k.
    replace (2 * S k)%nat with (S (S (2 * k))) by lia.
    reflexivity.
Qed.

Lemma poll_body_even_frame (drv : Driver) (c : ADCChannel.t)
  (buffer : list byte) (voltages : list Z) (tr : trace) :
  let k := calls is_cont_read tr in
  (fst (drv_cont_read drv k) = ESP_OK ->
   Nat.even (List.length (firstn 1024 (snd (drv_cont_read drv k)))) = true) ->
  snd (fst (ADCChannel.poll_body drv c buffer voltages tr))
  = voltages ++ decoded_frame drv c k.
Proof.
  intros k Heven. rewrite poll_body_spec. cbv zeta. cbn [fst snd].
  fold k. unfold decoded_frame.
  destruct (drv_cont_read drv k) as [ret data]. cbn [fst snd] in *.
  destruct (Z.eqb_spec ret ESP_OK) as [->|Hne].
  - f_equal. specialize (Heven eq_refl).
    apply Nat.even_spec in Heven. destruct Heven as [n Hn].
    apply (records_decode
             (fun lo hi => adc_cali_raw_to_voltage drv
                             (ADCChannel._cali_handle c)
                             (ADCChannel.raw_reading lo hi)) n).
    exact Hn.
  - now rewrite app_nil_r.
Qed.

(** What [m] passes leave behind, whatever the reads return. *)
Lemma polls_spec (drv : Driver) (c : ADCChannel.t) (m : nat) :
  forall (buffer : list byte) (voltages : list Z) (tr : trace),
  let k0 := calls is_cont_read tr in
  let '(_, voltages', tr') := polls drv c m (buffer, voltages, tr) in
  calls is_cont_read tr' = (k0 + m)%nat
  /\ logs tr' = flat_map (poll_warning drv) (rev (seq k0 m)) ++ logs tr
  /\ exists more,
       voltages' = voltages ++ more
       /\ ((forall i, (i < m)%nat ->
              fst (drv_cont_read drv (k0 + i)) <> ESP_OK) -> more = [])
       /\ ((forall i, (i < m)%nat ->
              fst (drv_cont_read drv (k0 + i)) = ESP_OK ->
              Nat.even (List.length
                          (firstn 1024 (snd (drv_cont_read drv (k0 + i)))))
              = true) ->
           more = flat_map (decoded_frame drv c) (seq k0 m)).
Proof.
  induction m as [|m IH]; intros buffer voltages tr k0.
  - simpl. split; [subst k0; lia|]. split; [reflexivity|].
    exists []. rewrite app_nil_r. auto.
  - rewrite polls_S.
    set (tr0 := EvTimer (drv_timer drv (calls is_timer tr)) :: tr).
    assert (Hk : calls is_cont_read tr0 = k0) by reflexivity.
    pose proof (poll_body_spec drv c buffer voltages tr0) as Hb.
    pose proof (poll_body_even_frame drv c buffer voltages tr0) as He.
    cbv zeta in Hb, He. rewrite Hk in Hb, He.
    destruct (ADCChannel.poll_body drv c buffer voltages tr0)
      as [[buffer1 voltages1] tr1].
    cbn [fst snd] in He.
    assert (Hc : calls is_cont_read tr1 = S k0).
    { inversion Hb; subst tr1.
      rewrite calls_app, poll_warning_calls by reflexivity.
      rewrite calls_cons. cbn [is_cont_read]. now rewrite Hk. }
    assert (Hl : logs tr1 = poll_warning drv k0 ++ logs tr).
    { inversion Hb; subst tr1. unfold logs at 1.
      rewrite filter_app. fold (logs (poll_warning drv k0)).
      now rewrite poll_warning_logs. }
    assert (Hv : fst (drv_cont_read drv k0) <> ESP_OK ->
                 voltages1 = voltages).
    { intros Hne. inversion Hb.
      now destruct (Z.eqb_spec (fst (drv_cont_read drv k0)) ESP_OK). }
    assert (Hext : exists more1, voltages1 = voltages ++ more1).
    { inversion Hb.
      destruct (fst (drv_cont_read drv k0) =? ESP_OK);
        [eexists; reflexivity|exists []; now rewrite app_nil_r]. }
    clear Hb.
    specialize (IH buffer1 voltages1 tr1). cbv zeta in IH.
    destruct (polls drv c m (buffer1, voltages1, tr1))
      as [[buffer' voltages'] tr'].
    rewrite Hc in IH. destruct IH as [IHc [IHl [more [IHv [IHn IHe]]]]].
    split; [lia|]. split.
    + rewrite IHl, Hl. cbn [seq rev]. rewrite flat_map_app. cbn [flat_map].
      rewrite app_nil_r. now rewrite <- app_assoc.
    + destruct Hext as [more1 Hm1]. exists (more1 ++ more).
      split; [rewrite IHv, Hm1; now rewrite app_assoc|]. split.
      * intros Hno. rewrite IHn.
        -- rewrite app_nil_r.
           pose proof (Hv ltac:(rewrite <- (Nat.add_0_r k0);
                                apply Hno; lia)) as E.
           rewrite E in Hm1.
           apply (app_inv_head voltages). now rewrite app_nil_r.
        -- intros i Hi.
           replace (S k0 + i)%nat with (k0 + S i)%nat by lia.
           apply Hno. lia.
      * intros Hev. rewrite IHe.
        -- cbn [seq flat_map]. f_equal.
           apply (app_inv_head voltages). rewrite <- Hm1.
           apply He. intros Hok.
           pose proof (Hev 0%nat ltac:(lia)) as H0.
           rewrite Nat.add_0_r in H0. now apply H0.
        -- intros i Hi.
           replace (S k0 + i)%nat with (k0 + S i)%nat by lia.
           apply Hev. lia.
Qed.

(** C8: while the clock keeps the loop running ([m] readings inside the
    window, the next one outside), the loop makes all [m] polls whatever
    the reads return and then ends normally: a timeout leaves no log
    line, any other read error leaves one warning, and the samples
    collected so far are kept (nothing is added when every read fails). *)
Theorem poll_loop_tolerates_read_errors (drv : Driver) (c : ADCChannel.t)
  (start_time duration_ms : Z) (m fuel : nat) (buffer : list byte)
  (voltages : list Z) (tr : trace) :
  (forall i, (i < m)%nat ->
     ADCChannel.still_sampling (drv_timer drv (calls is_timer tr + i))
       start_time duration_ms = true) ->
  ADCChannel.still_sampling (drv_timer drv (calls is_timer tr + m))
    start_time duration_ms = false ->
  (m < fuel)%nat ->
  exists buffer' more tr',
    ADCChannel.poll_loop drv c start_time duration_ms fuel buffer voltages tr
      = Some (buffer', voltages ++ more, tr')
    /\ calls is_cont_read tr' = (calls is_cont_read tr + m)%nat
    /\ logs tr' =
         flat_map (poll_warning drv) (rev (seq (calls is_cont_read tr) m))
         ++ logs tr
    /\ ((forall i, (i < m)%nat ->
           fst (drv_cont_read drv (calls is_cont_read tr + i)) <> ESP_OK) ->
        more = []).
Proof.
  intros Hin Hout Hfuel.
  rewrite (poll_loop_run drv c start_time duration_ms m fuel buffer voltages
             tr Hin Hout Hfuel).
  pose proof (polls_spec drv c m buffer voltages tr) as Hp. cbv zeta in Hp.
  destruct (polls drv c m (buffer, voltages, tr))
    as [[buffer' voltages'] tr'].
  destruct Hp as [Hc [Hl [more [Hv [Hn _]]]]].
  exists buffer', more, (EvTimer (drv_timer drv (calls is_timer tr + m)) :: tr').
  split; [now rewrite Hv|]. split; [rewrite calls_cons; exact Hc|].
  split; [exact Hl|exact Hn].
Qed.

Lemma poll_loop_tolerates_read_errors_witness :
  exists buffer' more tr',
    ADCChannel.poll_loop bursty_stream channel0 0 5 10 (repeat x00 1024)
      [7] [EvTimer 0]
      = Some (buffer', [7] ++ more, tr')
    /\ calls is_cont_read tr' = 4%nat
    /\ logs tr' = [EvLog LOGW "ADC continuous read error"].
Proof.
  assert (Hin : forall i, (i < 4)%nat ->
            ADCChannel.still_sampling
              (drv_timer bursty_stream (calls is_timer [EvTimer 0] + i))
              0 5 = true).
  { intros i Hi.
    destruct i as [|[|[|[|i]]]]; [reflexivity..|lia]. }
  assert (Hout : ADCChannel.still_sampling
                   (drv_timer bursty_stream (calls is_timer [EvTimer 0] + 4))
                   0 5 = false) by reflexivity.
  assert (Hfuel : (4 < 10)%nat) by lia.
  destruct (poll_loop_tolerates_read_errors bursty_stream channel0 0 5 4 10
              (repeat x00 1024) [7] [EvTimer 0] Hin Hout Hfuel)
    as [buffer' [more [tr' [Hr [Hc [Hl _]]]]]].
  exists buffer', more, tr'.
  split; [exact Hr|]. split; [exact Hc|]. rewrite Hl. reflexivity.
Defined.

Lemma sampleForDuration_run (drv : Driver) (c : ADCChannel.t)
  (duration_ms : Z) (m fuel : nat) (tr : trace) :
  drv_malloc drv (calls is_malloc tr) = true ->
  drv_cont_start drv (calls is_cont_start tr) = ESP_OK ->
  let start_time := wrap_u64 (drv_timer drv (calls is_timer tr)) in
  (forall i, (i < m)%nat ->
     ADCChannel.still_sampling (drv_timer drv (S (calls is_timer tr) + i))
       start_time duration_ms = true) ->
  ADCChannel.still_sampling (drv_timer drv (S (calls is_timer tr) + m))
    start_time duration_ms = false ->
  (m < fuel)%nat ->
  exists tr',
    ADCChannel.sampleForDuration drv c duration_ms fuel tr =
      Some (snd (fst (polls drv c m
                        (repeat x00 1024, [],
                         EvTimer (drv_timer drv (calls is_timer tr))
                         :: EvContStart (ADCChannel._cont_handle c) ESP_OK
                         :: EvMalloc 1024 true :: tr))), tr').
Proof.
  intros Hmalloc Hstart start_time Hin Hout Hfuel.
  unfold ADCChannel.sampleForDuration, malloc, adc_continuous_start,
    esp_timer_get_time.
  rewrite Hmalloc. cbn [negb].
  rewrite calls_cons. cbn [is_cont_start]. rewrite Hstart.
  change (ESP_OK =? ESP_OK) with true. cbn [negb].
  rewrite !calls_cons. cbn [is_timer]. fold start_time.
  set (tr0 := EvTimer _ :: _).
  assert (Hc : calls is_timer tr0 = S (calls is_timer tr))
    by (subst tr0; now rewrite !calls_cons).
  rewrite (poll_loop_run drv c start_time duration_ms m fuel)
    by (rewrite ?Hc; assumption).
  unfold trace in *.
  destruct (polls drv c m (repeat x00 1024, [], tr0))
    as [[buffer' voltages'] tr'].
  unfold adc_continuous_stop. cbn [fst snd]. eexists. reflexivity.
Qed.

(** C9: a record is two consecutive bytes, low byte first; its raw code
    is [low + 256 * (high mod 16)], so the upper four bits of the high
    byte do not count.  After a successful read of [n] bytes the loop body
    has appended, in order, the calibrated code of each record that
    starts at an even index below [n]; and a whole capture whose
    successful reads deliver whole records returns exactly the calibrated
    codes of all records of all frames, in order of arrival. *)
Theorem streaming_records_decoded (drv : Driver) (c : ADCChannel.t) :
  (forall lo hi : byte,
     ADCChannel.raw_reading lo hi = byte_val lo + 256 * (byte_val hi mod 16))
  /\ (forall (buffer : list byte) (voltages : list Z) (tr : trace),
        let k := calls is_cont_read tr in
        let data := firstn 1024 (snd (drv_cont_read drv k)) in
        let buffer' := data ++ skipn (List.length data) buffer in
        fst (drv_cont_read drv k) = ESP_OK ->
        fst (ADCChannel.poll_body drv c buffer voltages tr) =
          (buffer',
           voltages ++
           map (fun i =>
                  adc_cali_raw_to_voltage drv (ADCChannel._cali_handle c)
                    (ADCChannel.raw_reading (nth (2 * i) buffer' x00)
                       (nth (2 * i + 1) buffer' x00)))
               (seq 0 (Nat.div2 (List.length data + 1)))))
  /\ (forall (duration_ms : Z) (m fuel : nat) (tr : trace),
        let k0 := calls is_cont_read tr in
        let start_time := wrap_u64 (drv_timer drv (calls is_timer tr)) in
        drv_malloc drv (calls is_malloc tr) = true ->
        drv_cont_start drv (calls is_cont_start tr) = ESP_OK ->
        (forall i, (i < m)%nat ->
           ADCChannel.still_sampling
             (drv_timer drv (S (calls is_timer tr) + i))
             start_time duration_ms = true) ->
        ADCChannel.still_sampling
          (drv_timer drv (S (calls is_timer tr) + m))
          start_time duration_ms = false ->
        (m < fuel)%nat ->
        (forall i, (i < m)%nat ->
           fst (drv_cont_read drv (k0 + i)) = ESP_OK ->
           Nat.even (List.length
                       (firstn 1024 (snd (drv_cont_read drv (k0 + i)))))
           = true) ->
        exists tr',
          ADCChannel.sampleForDuration drv c duration_ms fuel tr =
            Some (flat_map (decoded_frame drv c) (seq k0 m), tr')).
Proof.
  split; [apply raw_reading_value|]. split.
  - intros buffer voltages tr k data buffer' Hok.
    rewrite poll_body_spec. cbv zeta. cbn [fst]. fold k. rewrite Hok.
    reflexivity.
  - intros duration_ms m fuel tr k0 start_time Hmalloc Hstart Hin Hout
      Hfuel Heven.
    destruct (sampleForDuration_run drv c duration_ms m fuel tr Hmalloc
                Hstart Hin Hout Hfuel) as [tr' Hr].
    exists tr'. rewrite Hr. do 2 f_equal.
    set (tr0 := EvTimer _ :: _).
    pose proof (polls_spec drv c m (repeat x00 1024) [] tr0) as Hp.
    cbv zeta in Hp. unfold trace in *.
    destruct (polls drv c m (repeat x00 1024, [], tr0))
      as [[buffer' voltages'] tr''].
    destruct Hp as [_ [_ [more [Hv [_ He]]]]].
    cbn [fst snd]. rewrite Hv. cbn [app].
    apply He. exact Heven.
Qed.

Lemma streaming_records_decoded_witness :
  exists tr',
    ADCChannel.sampleForDuration bursty_stream channel0 5 10 [] =
      Some ([564; 4095; 1], tr').
Proof.
  assert (Hmalloc : drv_malloc bursty_stream (calls is_malloc []) = true)
    by reflexivity.
  assert (Hstart : drv_cont_start bursty_stream (calls is_cont_start [])
                   = ESP_OK) by reflexivity.
  assert (Hin : forall i, (i < 4)%nat ->
            ADCChannel.still_sampling
              (drv_timer bursty_stream (S (calls is_timer []) + i))
              (wrap_u64 (drv_timer bursty_stream (calls is_timer []))) 5
            = true).
  { intros i Hi. destruct i as [|[|[|[|i]]]]; [reflexivity..|lia]. }
  assert (Hout : ADCChannel.still_sampling
                   (drv_timer bursty_stream (S (calls is_timer []) + 4))
                   (wrap_u64 (drv_timer bursty_stream (calls is_timer [])))
                   5 = false) by reflexivity.
  assert (Hfuel : (4 < 10)%nat) by lia.
  assert (Heven : forall i, (i < 4)%nat ->
            fst (drv_cont_read bursty_stream (calls is_cont_read [] + i))
            = ESP_OK ->
            Nat.even (List.length
                        (firstn 1024
                           (snd (drv_cont_read bursty_stream
                                   (calls is_cont_read [] + i))))) = true).
  { intros i Hi _. destruct i as [|[|[|[|i]]]]; [reflexivity..|lia]. }
  destruct (proj2 (proj2 (streaming_records_decoded bursty_stream channel0))
              5 4%nat 10%nat [] Hmalloc Hstart Hin Hout Hfuel Heven)
    as [tr' Hr].
  exists tr'. exact Hr.
Defined.

(* ================================================================== *)
(** ** [ADCChannel::create] *)

Lemma getContinuousHandle_calls_other (drv : Driver) (u : ADCUnit.t)
  (tr : trace) (f : event -> bool) :
  (forall err h, f (EvContNewHandle err h) = false) ->
  (forall h err, f (EvContConfig h err) = false) ->
  (forall h, f (EvContDeinit h) = false) ->
  calls f (snd (ADCUnit.getContinuousHandle drv u tr)) = calls f tr.
Proof.
  intros H1 H2 H3.
  destruct (ADCUnit._continuous_initialized u) eqn:Hf.
  - now rewrite (getContinuousHandle_cached drv u tr Hf).
  - unfold ADCUnit.getContinuousHandle.
    destruct (ensure_fresh drv u tr Hf)
      as [[Hne E]|[[He [Hne E]]|[He [He2 E]]]]; rewrite E;
      match goal with |- context [if ?b then _ else _] => destruct b end;
      cbn [snd]; rewrite !calls_cons, ?H1, ?H2, ?H3; reflexivity.
Qed.

Lemma poll_warning_on_handle (drv : Driver) (k : nat) (h : handle) :
  Forall (on_cont_handle h) (poll_warning drv k).
Proof.
  unfold poll_warning. destruct (_ || _); repeat constructor.
Qed.

(** The loop only adds to the history, and its streaming reads go to the
    channel's streaming handle. *)
Lemma poll_loop_extends (drv : Driver) (c : ADCChannel.t)
  (start_time duration_ms : Z) (fuel : nat) :
  forall (buffer : list byte) (voltages : list Z) (tr : trace)
         (buffer' : list byte) (voltages' : list Z) (tr' : trace),
  ADCChannel.poll_loop drv c start_time duration_ms fuel buffer voltages tr
    = Some (buffer', voltages', tr') ->
  exists more,
    tr' = more ++ tr
    /\ Forall (on_cont_handle (ADCChannel._cont_handle c)) more.
Proof.
  induction fuel as [|fuel IH]; intros buffer voltages tr buffer' voltages'
    tr' H; [discriminate|].
  simpl in H. unfold esp_timer_get_time in H.
  destruct (ADCChannel.still_sampling _ _ _).
  - set (tr0 := EvTimer _ :: tr) in H.
    pose proof (poll_body_spec drv c buffer voltages tr0) as Hb.
    cbv zeta in Hb.
    destruct (ADCChannel.poll_body drv c buffer voltages tr0)
      as [[buffer1 voltages1] tr1].
    destruct (IH _ _ _ _ _ _ H) as [more [Hm Hall]].
    assert (E : tr1 = (poll_warning drv (calls is_cont_read tr0)
                       ++ [EvContRead (ADCChannel._cont_handle c)
                             (fst (drv_cont_read drv (calls is_cont_read tr0)))
                             (firstn 1024
                                (snd (drv_cont_read drv
                                        (calls is_cont_read tr0))));
                           EvTimer (drv_timer drv (calls is_timer tr))])
                      ++ tr).
    { rewrite <- app_assoc. now inversion Hb. }
    rewrite E in Hm. eexists. split; [rewrite Hm, app_assoc; reflexivity|].
    apply Forall_app. split; [exact Hall|].
    apply Forall_app. split; [apply poll_warning_on_handle|].
    repeat constructor.
  - inversion H; subst. exists [EvTimer (drv_timer drv (calls is_timer tr))].
    split; [reflexivity|repeat constructor].
Qed.

(** Whenever [sampleForDuration] has a buffer, it starts the driver on
    the streaming handle the channel holds, and every later streaming
    call goes to that handle. *)
Lemma sampleForDuration_history (drv : Driver) (c : ADCChannel.t)
  (duration_ms : Z) (fuel : nat) (tr : trace) (voltages : list Z)
  (tr' : trace) :
  drv_malloc drv (calls is_malloc tr) = true ->
  ADCChannel.sampleForDuration drv c duration_ms fuel tr
    = Some (voltages, tr') ->
  exists more,
    tr' = more ++ EvContStart (ADCChannel._cont_handle c)
                    (drv_cont_start drv (calls is_cont_start tr))
                  :: EvMalloc 1024 true :: tr
    /\ Forall (on_cont_handle (ADCChannel._cont_handle c)) more.
Proof.
  intros Hmalloc H.
  unfold ADCChannel.sampleForDuration, malloc, adc_continuous_start,
    esp_timer_get_time in H.
  rewrite Hmalloc in H. cbn [negb] in H.
  rewrite calls_cons in H. cbn [is_cont_start] in H.
  destruct (negb (drv_cont_start drv (calls is_cont_start tr) =? ESP_OK)).
  - inversion H; subst. unfold free, ESP_LOGE. eexists [_; _].
    split; [reflexivity|repeat constructor].
  - destruct (ADCChannel.poll_loop _ _ _ _ _ _ _ _)
      as [[[buffer1 voltages1] tr1]|] eqn:Ep; [|discriminate].
    apply poll_loop_extends in Ep. destruct Ep as [more [Hm Hall]].
    unfold adc_continuous_stop, free, ESP_LOGE in H.
    destruct (negb _) in H; inversion H; subst.
    + eexists (_ :: _ :: _ :: more ++ [_]).
      split; [cbn [app]; rewrite <- app_assoc; reflexivity|].
      repeat constructor. apply Forall_app. split; [exact Hall|].
      repeat constructor.
    + eexists (_ :: _ :: more ++ [_]).
      split; [cbn [app]; rewrite <- app_assoc; reflexivity|].
      repeat constructor. apply Forall_app. split; [exact Hall|].
      repeat constructor.
Qed.

(** A capture whose clock leaves room for [m] polls makes exactly [m]
    streaming reads. *)
Lemma sampleForDuration_reads (drv : Driver) (c : ADCChannel.t)
  (duration_ms : Z) (m fuel : nat) (tr : trace) :
  drv_malloc drv (calls is_malloc tr) = true ->
  drv_cont_start drv (calls is_cont_start tr) = ESP_OK ->
  let start_time := wrap_u64 (drv_timer drv (calls is_timer tr)) in
  (forall i, (i < m)%nat ->
     ADCChannel.still_sampling (drv_timer drv (S (calls is_timer tr) + i))
       start_time duration_ms = true) ->
  ADCChannel.still_sampling (drv_timer drv (S (calls is_timer tr) + m))
    start_time duration_ms = false ->
  (m < fuel)%nat ->
  exists voltages tr',
    ADCChannel.sampleForDuration drv c duration_ms fuel tr
      = Some (voltages, tr')
    /\ calls is_cont_read tr' = (calls is_cont_read tr + m)%nat.
Proof.
  intros Hmalloc Hstart start_time Hin Hout Hfuel.
  unfold ADCChannel.sampleForDuration, malloc, adc_continuous_start,
    esp_timer_get_time.
  rewrite Hmalloc. cbn [negb].
  rewrite calls_cons. cbn [is_cont_start]. rewrite Hstart.
  change (ESP_OK =? ESP_OK) with true. cbn [negb].
  rewrite !calls_cons. cbn [is_timer]. fold start_time.
  set (tr0 := EvTimer _ :: _).
  assert (Hc : calls is_timer tr0 = S (calls is_timer tr))
    by (subst tr0; now rewrite !calls_cons).
  rewrite (poll_loop_run drv c start_time duration_ms m fuel)
    by (rewrite ?Hc; assumption).
  pose proof (polls_spec drv c m (repeat x00 1024) [] tr0) as Hp.
  cbv zeta in Hp. unfold trace in *.
  destruct (polls drv c m (repeat x00 1024, [], tr0))
    as [[buffer' voltages'] tr'].
  destruct Hp as [Hr _].
  unfold adc_continuous_stop, free, ESP_LOGE. cbn [fst snd].
  eexists. eexists. split; [reflexivity|].
  destruct (negb _); rewrite !calls_cons; cbn [is_cont_read];
    rewrite Hr; subst tr0; now rewrite !calls_cons.
Qed.

(** C10: when the single-shot channel configuration and the creation of
    the calibration context succeed, [create] returns an initialised
    channel, whatever became of the streaming handle: the constructor
    has called [getContinuousHandle] on the unit first (its driver calls
    come before the channel's own, and the unit is left as that call
    leaves it), and the channel keeps the handle that call returned, null
    when the provisioning failed.  [sampleForDuration] then works on that
    handle: with a buffer it calls [adc_continuous_start] on it; if the
    start is refused it returns the empty sequence at once, and if the
    clock leaves room for [m] polls it returns after [m] streaming reads,
    all streaming calls going to that handle. *)
Theorem create_ignores_streaming_handle (dtor : ADCChannel.t -> trace -> trace)
  (drv : Driver) (indeterminate : handle) (unit : ADCUnit.t)
  (channel atten : Z) (tr : trace) :
  drv_oneshot_config_channel drv (calls is_oneshot_config_channel tr)
    = ESP_OK ->
  fst (drv_cali_create drv (calls is_cali_create tr)) = ESP_OK ->
  exists c more,
    ADCChannel.create dtor drv indeterminate unit channel atten tr
      = (Some c,
         snd (fst (ADCUnit.getContinuousHandle drv unit tr)),
         more ++ snd (ADCUnit.getContinuousHandle drv unit tr))
    /\ ADCChannel.isInitialized c = true
    /\ ADCChannel._cont_handle c
       = fst (fst (ADCUnit.getContinuousHandle drv unit tr))
    /\ (fst (fst (ADCUnit.ensureContinuousInitialized drv unit tr)) <> ESP_OK
        -> ADCChannel._cont_handle c = nullptr)
    /\ (forall duration_ms fuel tr2,
          drv_malloc drv (calls is_malloc tr2) = true ->
          drv_cont_start drv (calls is_cont_start tr2) <> ESP_OK ->
          ADCChannel.sampleForDuration drv c duration_ms fuel tr2
          = Some ([],
                  [EvFree; EvLog LOGE "Failed to start continuous ADC";
                   EvContStart (ADCChannel._cont_handle c)
                     (drv_cont_start drv (calls is_cont_start tr2));
                   EvMalloc 1024 true] ++ tr2))
    /\ (forall duration_ms m fuel tr2,
          drv_malloc drv (calls is_malloc tr2) = true ->
          drv_cont_start drv (calls is_cont_start tr2) = ESP_OK ->
          (forall i, (i < m)%nat ->
             ADCChannel.still_sampling
               (drv_timer drv (S (calls is_timer tr2) + i))
               (wrap_u64 (drv_timer drv (calls is_timer tr2))) duration_ms
             = true) ->
          ADCChannel.still_sampling
            (drv_timer drv (S (calls is_timer tr2) + m))
            (wrap_u64 (drv_timer drv (calls is_timer tr2))) duration_ms
          = false ->
          (m < fuel)%nat ->
          exists voltages more2,
            ADCChannel.sampleForDuration drv c duration_ms fuel tr2
            = Some (voltages,
                    more2 ++ EvContStart (ADCChannel._cont_handle c) ESP_OK
                               :: EvMalloc 1024 true :: tr2)
            /\ Forall (on_cont_handle (ADCChannel._cont_handle c)) more2
            /\ calls is_cont_read more2 = m).
Proof.
  intros Hcfg Hcali.
  pose proof (getContinuousHandle_calls_other drv unit tr
                is_oneshot_config_channel) as Hc1.
  pose proof (getContinuousHandle_calls_other drv unit tr is_cali_create)
    as Hc2.
  assert (Hnull : fst (fst (ADCUnit.ensureContinuousInitialized drv unit tr))
                  <> ESP_OK ->
                  fst (fst (ADCUnit.getContinuousHandle drv unit tr))
                  = nullptr).
  { unfold ADCUnit.getContinuousHandle.
    destruct (ADCUnit.ensureContinuousInitialized drv unit tr)
      as [[err u'] tr'']. cbn [fst]. intros Hne.
    now destruct (Z.eqb_spec err ESP_OK). }
  unfold ADCChannel.create, ADCChannel.ADCChannel.
  destruct (ADCUnit.getContinuousHandle drv unit tr) as [[h u1] tr1].
  cbn [fst snd] in *.
  unfold adc_oneshot_config_channel.
  rewrite Hc1 by reflexivity. rewrite Hcfg.
  change (ESP_OK =? ESP_OK) with true. cbn [negb].
  unfold adc_cali_create_scheme_curve_fitting.
  rewrite calls_cons. cbn [is_cali_create]. rewrite Hc2 by reflexivity.
  destruct (drv_cali_create drv (calls is_cali_create tr)) as [err cali].
  cbn [fst] in Hcali. subst err.
  change (ESP_OK =? ESP_OK) with true. cbn [negb ADCChannel.isInitialized
    ADCChannel._is_initialized].
  eexists. eexists [_; _]. split; [reflexivity|].
  split; [reflexivity|]. split; [reflexivity|].
  split; [exact Hnull|]. split.
  - intros duration_ms fuel tr2 Hmalloc Hstart.
    unfold ADCChannel.sampleForDuration, malloc, adc_continuous_start.
    rewrite Hmalloc. cbn [negb].
    rewrite calls_cons. cbn [is_cont_start].
    destruct (Z.eqb_spec (drv_cont_start drv (calls is_cont_start tr2))
                ESP_OK); [contradiction|].
    reflexivity.
  - intros duration_ms m fuel tr2 Hmalloc Hstart Hin Hout Hfuel.
    destruct (sampleForDuration_reads drv
                (ADCChannel.mk (ADCUnit.getOneshotHandle unit) h channel cali
                   true) duration_ms m fuel tr2 Hmalloc Hstart Hin Hout
                Hfuel) as [voltages [tr' [Hr Hn]]].
    destruct (sampleForDuration_history drv _ duration_ms fuel tr2 voltages
                tr' Hmalloc Hr) as [more2 [Hm Hall]].
    rewrite Hstart in Hm. subst tr'.
    exists voltages, more2. split; [exact Hr|]. split; [exact Hall|].
    rewrite calls_app, !calls_cons in Hn. cbn [is_cont_read] in Hn. lia.
Qed.

Lemma create_ignores_streaming_handle_witness :
  exists c tr' voltages more2,
    ADCChannel.create no_dtor no_streaming nullptr unit0 ADC_CHANNEL_0
      ADC_ATTEN_DB_6 [] = (Some c, unit0, tr')
    /\ ADCChannel.isInitialized c = true
    /\ ADCChannel._cont_handle c = nullptr
    /\ ADCChannel.sampleForDuration no_streaming c 5 10 []
       = Some (voltages,
               more2 ++ [EvContStart nullptr ESP_OK; EvMalloc 1024 true])
    /\ calls is_cont_read more2 = 4%nat.
Proof.
  assert (H1 : drv_oneshot_config_channel no_streaming
                 (calls is_oneshot_config_channel []) = ESP_OK)
    by reflexivity.
  assert (H2 : fst (drv_cali_create no_streaming (calls is_cali_create []))
               = ESP_OK) by reflexivity.
  destruct (create_ignores_streaming_handle no_dtor no_streaming nullptr
              unit0 ADC_CHANNEL_0 ADC_ATTEN_DB_6 [] H1 H2)
    as [c [more [Hc [Hi [Hh [_ [_ Hs]]]]]]].
  assert (Hm : drv_malloc no_streaming (calls is_malloc []) = true)
    by reflexivity.
  assert (Hst : drv_cont_start no_streaming (calls is_cont_start [])
                = ESP_OK) by reflexivity.
  assert (Hin : forall i, (i < 4)%nat ->
            ADCChannel.still_sampling
              (drv_timer no_streaming (S (calls is_timer []) + i))
              (wrap_u64 (drv_timer no_streaming (calls is_timer []))) 5
            = true).
  { intros i Hlt. destruct i as [|[|[|[|i]]]]; [reflexivity..|lia]. }
  assert (Hout : ADCChannel.still_sampling
                   (drv_timer no_streaming (S (calls is_timer []) + 4))
                   (wrap_u64 (drv_timer no_streaming (calls is_timer [])))
                   5 = false) by reflexivity.
  assert (Hfuel : (4 < 10)%nat) by lia.
  destruct (Hs 5 4%nat 10%nat [] Hm Hst Hin Hout Hfuel)
    as [voltages [more2 [Hr [_ Hn]]]].
  assert (Hnull : ADCChannel._cont_handle c = nullptr)
    by (rewrite Hh; reflexivity).
  rewrite Hnull in Hr.
  exists c. eexists. exists voltages, more2.
  split; [exact Hc|]. split; [exact Hi|]. split; [exact Hnull|].
  split; [exact Hr|exact Hn].
Defined.

(* ================================================================== *)
(** ** Further properties of [calculatePercWidth] *)

Lemma std_sort_nonempty (data : list Z) : data <> [] -> std_sort data <> [].
Proof.
  intros Hne E. apply (f_equal (@List.length Z)) in E.
  rewrite std_sort_length in E. destruct data; [congruence|discriminate].
Qed.

(** The index the function reads at is inside the vector. *)
Lemma clamped_index_in_bounds (idx n : Z) :
  1 <= n -> (Z.to_nat (Z.min idx (n - 1)) < Z.to_nat n)%nat.
Proof. intros Hn. lia. Qed.

Lemma at_index_In (l : list Z) (idx : Z) :
  l <> [] ->
  In (at_index l (Z.min idx (Z.of_nat (List.length l) - 1))) l.
Proof.
  intros Hne. unfold at_index. apply nth_In.
  destruct l; [congruence|]. simpl List.length. lia.
Qed.

(** X1: the width depends on the values only, not on their order:
    rearranging the input leaves the result unchanged. *)
Theorem calculatePercWidth_permutation (data data' : list Z) (p : Z) :
  Permutation data data' ->
  fst (ADCChannel.calculatePercWidth data p)
  = fst (ADCChannel.calculatePercWidth data' p).
Proof.
  intros Hperm.
  destruct (Z.ltb_spec p 10).
  { now rewrite !(calculatePercWidth_guards _ p) by auto. }
  destruct (Z.ltb_spec 90 p).
  { now rewrite !(calculatePercWidth_guards _ p) by lia. }
  destruct data as [|x data].
  { apply Permutation_nil in Hperm. now subst. }
  assert (Hne' : data' <> []).
  { intros ->. apply Permutation_sym, Permutation_nil in Hperm.
    discriminate. }
  rewrite (calculatePercWidth_in_range (x :: data) p) by (congruence || lia).
  rewrite (calculatePercWidth_in_range data' p) by (assumption || lia).
  cbv zeta. cbn [fst].
  rewrite (std_sort_perm_eq _ _ Hperm), (Permutation_length Hperm).
  reflexivity.
Qed.

Lemma calculatePercWidth_permutation_witness :
  Permutation [30; 10; 50; 20; 40] [10; 20; 30; 40; 50]
  /\ fst (ADCChannel.calculatePercWidth [30; 10; 50; 20; 40] 30)
     = fst (ADCChannel.calculatePercWidth [10; 20; 30; 40; 50] 30).
Proof.
  assert (H : Permutation [30; 10; 50; 20; 40] [10; 20; 30; 40; 50])
    by (apply (std_sort_perm [30; 10; 50; 20; 40])).
  split; [exact H|].
  exact (calculatePercWidth_permutation _ _ 30 H).
Defined.

Lemma sort_insert_affine (a b x : Z) (l : list Z) :
  0 < a ->
  sort_insert (a * x + b) (map (fun v => a * v + b) l)
  = map (fun v => a * v + b) (sort_insert x l).
Proof.
  intros Ha. induction l as [|y l IH]; simpl; [reflexivity|].
  destruct (Z.leb_spec x y), (Z.leb_spec (a * x + b) (a * y + b));
    try nia; simpl; [reflexivity|]. now rewrite IH.
Qed.

Lemma std_sort_affine (a b : Z) (l : list Z) :
  0 < a ->
  std_sort (map (fun v => a * v + b) l)
  = map (fun v => a * v + b) (std_sort l).
Proof.
  intros Ha. induction l as [|x l IH]; simpl; [reflexivity|].
  rewrite IH. now apply sort_insert_affine.
Qed.

Lemma at_index_map (f : Z -> Z) (l : list Z) (idx : Z) :
  l <> [] ->
  at_index (map f l) (Z.min idx (Z.of_nat (List.length l) - 1))
  = f (at_index l (Z.min idx (Z.of_nat (List.length l) - 1))).
Proof.
  intros Hne. unfold at_index.
  rewrite (nth_indep _ 0 (f 0)).
  - apply map_nth.
  - rewrite length_map. destruct l; [congruence|]. simpl List.length. lia.
Qed.

(** Where the difference is exact: the two values read are samples, so
    a spread of the samples of at most [INT32_MAX] rules the wrap-around
    out. *)
Lemma calculatePercWidth_no_overflow (data : list Z) (p lo hi : Z) :
  data <> [] -> 10 <= p <= 90 ->
  Forall (fun v => lo <= v <= hi) data ->
  let s := std_sort data in
  let n := Z.of_nat (List.length data) in
  let upper_value :=
    at_index s (Z.min (ADCChannel.upper_index n p) (n - 1)) in
  let lower_value :=
    at_index s (Z.min (ADCChannel.lower_index n p) (n - 1)) in
  lo <= upper_value <= hi /\ lo <= lower_value <= hi
  /\ ADCChannel.calculatePercWidth data p
     = (to_int32 (upper_value - lower_value), s)
  /\ (hi - lo <= INT32_MAX ->
      fst (ADCChannel.calculatePercWidth data p) = upper_value - lower_value).
Proof.
  intros Hne Hp Hall s n upper_value lower_value.
  assert (Hs : forall v, In v s -> lo <= v <= hi).
  { intros v Hv. rewrite Forall_forall in Hall. apply Hall.
    eapply Permutation_in; [apply Permutation_sym, std_sort_perm|exact Hv]. }
  assert (Hsne : s <> []) by (now apply std_sort_nonempty).
  assert (Hn : n = Z.of_nat (List.length s))
    by (subst n s; now rewrite std_sort_length).
  assert (Hu : lo <= upper_value <= hi).
  { apply Hs. subst upper_value. rewrite Hn. now apply at_index_In. }
  assert (Hl : lo <= lower_value <= hi).
  { apply Hs. subst lower_value. rewrite Hn. now apply at_index_In. }
  split; [exact Hu|]. split; [exact Hl|].
  rewrite (calculatePercWidth_in_range data p Hne Hp). cbv zeta.
  split; [reflexivity|].
  intros Hfit. cbn [fst]. apply to_int32_small.
  fold s n upper_value lower_value. unfold INT32_MIN, INT32_MAX in *. lia.
Qed.

(** X2: as long as nothing overflows, a gain and an offset applied to
    every sample act on the width as on a difference: with [a > 0] and
    samples in [lo..hi] such that [a * (hi - lo) <= INT32_MAX], the width
    of [a * v + b] is [a] times the width of [v]; an offset alone leaves
    it unchanged. *)
Theorem calculatePercWidth_affine (a b lo hi : Z) (data : list Z) (p : Z) :
  0 < a ->
  Forall (fun v => lo <= v <= hi) data ->
  a * (hi - lo) <= INT32_MAX ->
  fst (ADCChannel.calculatePercWidth (map (fun v => a * v + b) data) p)
  = a * fst (ADCChannel.calculatePercWidth data p).
Proof.
  intros Ha Hall Hfit.
  destruct (Z.ltb_spec p 10).
  { rewrite !(calculatePercWidth_guards _ p) by auto. simpl. lia. }
  destruct (Z.ltb_spec 90 p).
  { rewrite !(calculatePercWidth_guards _ p) by lia. simpl. lia. }
  destruct data as [|x data].
  { rewrite !(calculatePercWidth_guards _ p) by auto. simpl. lia. }
  assert (Hlh : lo <= hi) by (inversion Hall; subst; lia).
  assert (Hall' : Forall (fun v => a * lo + b <= v <= a * hi + b)
                    (map (fun v => a * v + b) (x :: data))).
  { apply Forall_forall. intros v Hv. apply in_map_iff in Hv.
    destruct Hv as [w [<- Hw]]. rewrite Forall_forall in Hall.
    specialize (Hall w Hw). nia. }
  destruct (calculatePercWidth_no_overflow (x :: data) p lo hi)
    as [_ [_ [_ E1]]]; [congruence|lia|assumption|].
  destruct (calculatePercWidth_no_overflow (map (fun v => a * v + b)
                                              (x :: data)) p
              (a * lo + b) (a * hi + b))
    as [_ [_ [_ E2]]]; [discriminate|lia|assumption|].
  rewrite E1 by nia. rewrite E2 by nia.
  rewrite std_sort_affine by assumption. rewrite length_map.
  assert (Hne : std_sort (x :: data) <> [])
    by (apply std_sort_nonempty; congruence).
  rewrite <- (std_sort_length (x :: data)).
  rewrite !at_index_map by assumption. lia.
Qed.

Lemma calculatePercWidth_affine_witness :
  0 < 3
  /\ fst (ADCChannel.calculatePercWidth
            (map (fun v => 3 * v + 7) [100; 200; 300; 400; 500]) 30)
     = 3 * fst (ADCChannel.calculatePercWidth [100; 200; 300; 400; 500] 30).
Proof.
  split; [lia|].
  apply (calculatePercWidth_affine 3 7 100 500 [100; 200; 300; 400; 500] 30).
  - lia.
  - repeat constructor; lia.
  - unfold INT32_MAX. lia.
Defined.

(** X3: the width never exceeds the spread of the input: when every
    sample lies in [lo..hi], the result lies in [lo - hi .. hi - lo], for
    every percentile. *)
Theorem calculatePercWidth_within_spread (data : list Z) (p lo hi : Z) :
  lo <= hi ->
  Forall (fun v => lo <= v <= hi) data ->
  lo - hi <= fst (ADCChannel.calculatePercWidth data p) <= hi - lo.
Proof.
  intros Hlh Hall.
  destruct (Z.ltb_spec p 10).
  { rewrite (calculatePercWidth_guards _ p) by auto. simpl. lia. }
  destruct (Z.ltb_spec 90 p).
  { rewrite (calculatePercWidth_guards _ p) by lia. simpl. lia. }
  destruct data as [|x data].
  { rewrite (calculatePercWidth_guards _ p) by auto. simpl. lia. }
  destruct (calculatePercWidth_no_overflow (x :: data) p lo hi)
    as [Hu [Hl [E Hx]]]; [congruence|lia|assumption|].
  destruct (Z.le_gt_cases (hi - lo) INT32_MAX) as [Hfit|Hbig].
  - rewrite (Hx Hfit). lia.
  - rewrite E. cbn [fst].
    pose proof (to_int32_range
                  (at_index (std_sort (x :: data))
                     (Z.min (ADCChannel.upper_index
                               (Z.of_nat (List.length (x :: data))) p)
                        (Z.of_nat (List.length (x :: data)) - 1))
                   - at_index (std_sort (x :: data))
                       (Z.min (ADCChannel.lower_index
                                 (Z.of_nat (List.length (x :: data))) p)
                          (Z.of_nat (List.length (x :: data)) - 1)))) as Hr.
    unfold INT32_MIN, INT32_MAX in *. lia.
Qed.

Lemma calculatePercWidth_within_spread_witness :
  -400 <= fst (ADCChannel.calculatePercWidth [300; 100; 500; 200; 400] 60)
       <= 400.
Proof.
  apply (calculatePercWidth_within_spread [300; 100; 500; 200; 400] 60
           100 500).
  - lia.
  - repeat constructor; lia.
Defined.

(** What holds of the sign: up to 1024 elements whose spread is at most
    [INT32_MAX], the width is non-negative for a percentile of [10..50]
    and non-positive for one of [51..90]. *)
Lemma calculatePercWidth_sign (data : list Z) (p lo hi : Z) :
  data <> [] -> 10 <= p <= 90 ->
  Z.of_nat (List.length data) <= 1024 ->
  Forall (fun v => lo <= v <= hi) data -> hi - lo <= INT32_MAX ->
  (p <= 50 -> 0 <= fst (ADCChannel.calculatePercWidth data p))
  /\ (50 < p -> fst (ADCChannel.calculatePercWidth data p) <= 0).
Proof.
  intros Hne Hp Hn Hall Hfit.
  destruct (calculatePercWidth_no_overflow data p lo hi Hne Hp Hall)
    as [_ [_ [_ Hx]]].
  rewrite (Hx Hfit). clear Hx.
  set (n := Z.of_nat (List.length data)) in *.
  assert (Hn1 : 1 <= n <= Z.of_nat 1024).
  { subst n. destruct data; [congruence|]. simpl List.length in *.
    change (Z.of_nat 1024) with 1024. lia. }
  destruct (indices_close_at 1024 n p indices_close_checked Hn1 Hp)
    as [Hl [Hu [_ [_ [Hle Hgt]]]]].
  rewrite !Z.min_l by lia. unfold at_index.
  pose proof (sorted_at_index_mono (std_sort data) (std_sort_sorted data))
    as Hmono.
  assert (Hlen : Z.of_nat (List.length (std_sort data)) = n)
    by (now rewrite std_sort_length).
  split; intros Hp50.
  - specialize (Hle Hp50).
    pose proof (Hmono (Z.to_nat (ADCChannel.lower_index n p))
                  (Z.to_nat (ADCChannel.upper_index n p)) ltac:(lia)).
    lia.
  - specialize (Hgt Hp50).
    pose proof (Hmono (Z.to_nat (ADCChannel.upper_index n p))
                  (Z.to_nat (ADCChannel.lower_index n p)) ltac:(lia)).
    lia.
Qed.

(** X4: with one or two samples the width is 0 at every percentile,
    whatever the samples: both indices are 0. *)
Theorem calculatePercWidth_small_vector (data : list Z) (p : Z) :
  (List.length data <= 2)%nat ->
  fst (ADCChannel.calculatePercWidth data p) = 0.
Proof.
  intros Hlen.
  destruct (Z.ltb_spec p 10).
  { now rewrite (calculatePercWidth_guards _ p) by auto. }
  destruct (Z.ltb_spec 90 p).
  { now rewrite (calculatePercWidth_guards _ p) by lia. }
  destruct data as [|x data].
  { now rewrite (calculatePercWidth_guards _ p) by auto. }
  rewrite (calculatePercWidth_in_range (x :: data) p) by (congruence || lia).
  cbv zeta. cbn [fst].
  set (n := Z.of_nat (List.length (x :: data))).
  assert (Hn : 1 <= n <= Z.of_nat 1024).
  { subst n. simpl List.length in *. change (Z.of_nat 1024) with 1024. lia. }
  destruct (indices_close_at 1024 n p indices_close_checked Hn)
    as [Hl [Hu [Hel [Heu _]]]]; [lia|].
  assert (Hn2 : n <= 2) by (subst n; simpl List.length in *; lia).
  assert (El : exact_lower_index n p = 0).
  { unfold exact_lower_index. apply Z.div_small. nia. }
  assert (Eu : exact_upper_index n p = 0).
  { unfold exact_upper_index. apply Z.div_small. nia. }
  replace (ADCChannel.lower_index n p) with 0 by lia.
  replace (ADCChannel.upper_index n p) with 0 by lia.
  now rewrite Z.sub_diag.
Qed.

Lemma calculatePercWidth_small_vector_witness :
  fst (ADCChannel.calculatePercWidth [900; -50] 30) = 0.
Proof.
  apply (calculatePercWidth_small_vector [900; -50] 30). simpl. lia.
Defined.

(* ================================================================== *)
(** ** Further properties of [read] *)

Lemma fold_right_min_init (vs : list Z) (v m : Z) :
  fold_right Z.min (Z.min v m) vs = Z.min v (fold_right Z.min m vs).
Proof. induction vs as [|w vs IH]; simpl; [reflexivity|]. rewrite IH. lia. Qed.

Lemma fold_right_max_init (vs : list Z) (v m : Z) :
  fold_right Z.max (Z.max v m) vs = Z.max v (fold_right Z.max m vs).
Proof. induction vs as [|w vs IH]; simpl; [reflexivity|]. rewrite IH. lia. Qed.

Lemma fold_push_min_eq (vs : list Z) :
  forall a,
  ADCChannel.acc_min (fold_left ADCChannel.push_sample vs a)
  = fold_right Z.min (ADCChannel.acc_min a) vs.
Proof.
  induction vs as [|v vs IH]; intros a; simpl; [reflexivity|].
  rewrite IH. simpl. rewrite <- fold_right_min_init. f_equal.
  destruct (Z.ltb_spec v (ADCChannel.acc_min a)); lia.
Qed.

Lemma fold_push_max_eq (vs : list Z) :
  forall a,
  ADCChannel.acc_max (fold_left ADCChannel.push_sample vs a)
  = fold_right Z.max (ADCChannel.acc_max a) vs.
Proof.
  induction vs as [|v vs IH]; intros a; simpl; [reflexivity|].
  rewrite IH. simpl. rewrite <- fold_right_max_init. f_equal.
  destruct (Z.gtb_spec v (ADCChannel.acc_max a)); lia.
Qed.

Lemma fold_right_min_le (vs : list Z) (d : Z) :
  fold_right Z.min d vs <= d
  /\ Forall (fun v => fold_right Z.min d vs <= v) vs.
Proof.
  induction vs as [|v vs [IH1 IH2]]; simpl; [split; [lia|constructor]|].
  split; [lia|]. constructor; [lia|].
  eapply Forall_impl; [|exact IH2]. simpl. intros; lia.
Qed.

Lemma fold_right_max_ge (vs : list Z) (d : Z) :
  d <= fold_right Z.max d vs
  /\ Forall (fun v => v <= fold_right Z.max d vs) vs.
Proof.
  induction vs as [|v vs [IH1 IH2]]; simpl; [split; [lia|constructor]|].
  split; [lia|]. constructor; [lia|].
  eapply Forall_impl; [|exact IH2]. simpl. intros; lia.
Qed.

(** The loop of [read] when every read succeeds: accumulators and
    history. *)
Lemma read_loop_trace (drv : Driver) (c : ADCChannel.t) (delay : Z)
  (m : nat) :
  forall (a : ADCChannel.acc) (tr : trace),
  (forall i, (i < m)%nat ->
     fst (drv_oneshot_read drv (calls is_oneshot_read tr + i)) = ESP_OK) ->
  ADCChannel.read_loop drv c delay m a tr =
    inr (fold_left ADCChannel.push_sample
           (samples drv c (calls is_oneshot_read tr) m) a,
         flat_map (read_pass_events drv c delay)
           (rev (seq (calls is_oneshot_read tr) m)) ++ tr).
Proof.
  induction m as [|m IH]; intros a tr Hok; [reflexivity|].
  simpl ADCChannel.read_loop. unfold adc_oneshot_read.
  pose proof (Hok 0%nat ltac:(lia)) as H0. rewrite Nat.add_0_r in H0.
  destruct (drv_oneshot_read drv (calls is_oneshot_read tr))
    as [err raw] eqn:E.
  simpl in H0. subst err. simpl negb. cbv iota.
  set (tr1 := if delay >? 0 then _ else _).
  assert (Htr1 : tr1 = read_pass_events drv c delay (calls is_oneshot_read tr)
                       ++ tr).
  { subst tr1. unfold read_pass_events, vTaskDelay. rewrite E. cbn [snd].
    destruct (delay >? 0); reflexivity. }
  assert (Hc : calls is_oneshot_read tr1 = S (calls is_oneshot_read tr)).
  { subst tr1. unfold vTaskDelay.
    destruct (delay >? 0); rewrite !calls_cons; reflexivity. }
  rewrite IH.
  - rewrite Hc, samples_S, E. cbn [snd fold_left]. do 2 f_equal.
    cbn [seq rev]. rewrite flat_map_app. cbn [flat_map].
    rewrite app_nil_r, <- app_assoc. now rewrite <- Htr1.
  - intros i Hi. rewrite Hc.
    replace (S (calls is_oneshot_read tr) + i)%nat
      with (calls is_oneshot_read tr + S i)%nat by lia.
    apply Hok. lia.
Qed.

(** The whole of a successful [read], in closed form. *)
Lemma read_success_shape (drv : Driver) (c : ADCChannel.t)
  (sample_count sample_delay_ms : Z) (result : ADCReadResult) (tr : trace) :
  1 <= sample_count ->
  let n := Z.to_nat sample_count in
  let k0 := calls is_oneshot_read tr in
  let vs := samples drv c k0 n in
  (forall i, (i < n)%nat -> fst (drv_oneshot_read drv (k0 + i)) = ESP_OK) ->
  ADCChannel.read drv c sample_count sample_delay_ms result tr =
    Some (ESP_OK,
          mkResult (to_int32 (wrap_u32 (sum_list vs) / wrap_u32 sample_count))
                   (fold_right Z.min INT32_MAX vs)
                   (fold_right Z.max INT32_MIN vs)
                   (fst (ADCChannel.calculatePercWidth vs 30))
                   (fst (ADCChannel.calculatePercWidth vs 60)),
          flat_map (read_pass_events drv c sample_delay_ms)
            (rev (seq k0 n)) ++ tr).
Proof.
  intros Hn n k0 vs Hok. unfold ADCChannel.read.
  destruct (Z.leb_spec sample_count 0); [lia|].
  fold n. rewrite (read_loop_trace drv c sample_delay_ms n _ tr Hok).
  fold k0. fold vs.
  rewrite fold_push_voltages, fold_push_sum, fold_push_min_eq,
    fold_push_max_eq by (simpl; lia).
  cbn [ADCChannel.acc_voltages ADCChannel.acc_sum ADCChannel.acc_min
       ADCChannel.acc_max app Z.add].
  pose proof (calculatePercWidth_after_sort vs 30 60) as H60.
  destruct (ADCChannel.calculatePercWidth vs 30) as [p30 sorted].
  cbn [snd fst] in *.
  destruct (ADCChannel.calculatePercWidth sorted 60) as [p60 sorted'].
  cbn [fst] in H60. now subst p60.
Qed.

Lemma read_pass_events_calls (drv : Driver) (c : ADCChannel.t) (delay : Z)
  (l : list nat) :
  calls is_oneshot_read (flat_map (read_pass_events drv c delay) l)
  = List.length l
  /\ calls is_delay (flat_map (read_pass_events drv c delay) l)
     = (if delay >? 0 then List.length l else 0%nat)
  /\ calls is_log (flat_map (read_pass_events drv c delay) l) = 0%nat.
Proof.
  induction l as [|i l [IH1 [IH2 IH3]]]; simpl.
  - now destruct (delay >? 0).
  - rewrite !calls_app, IH1, IH2, IH3. unfold read_pass_events.
    destruct (delay >? 0); cbn [app]; rewrite !calls_cons; simpl; auto.
Qed.

(** X5: a successful [read] issues exactly [sampleCount] reads, on the
    channel's own single-shot handle and channel number, and with a
    positive delay it sleeps after every one of them, the last included
    ([sampleCount] sleeps of [sampleDelayMs]); with a delay of 0 or less
    it never sleeps; nothing is logged. *)
Theorem read_success_history (drv : Driver) (c : ADCChannel.t)
  (sample_count sample_delay_ms : Z) (result : ADCReadResult) (tr : trace) :
  1 <= sample_count ->
  let n := Z.to_nat sample_count in
  let k0 := calls is_oneshot_read tr in
  (forall i, (i < n)%nat -> fst (drv_oneshot_read drv (k0 + i)) = ESP_OK) ->
  exists r tr',
    ADCChannel.read drv c sample_count sample_delay_ms result tr
      = Some (ESP_OK, r, tr')
    /\ tr' = flat_map (read_pass_events drv c sample_delay_ms)
               (rev (seq k0 n)) ++ tr
    /\ calls is_oneshot_read tr' = (k0 + n)%nat
    /\ calls is_delay tr' =
         (calls is_delay tr + if sample_delay_ms >? 0 then n else 0)%nat
    /\ calls is_log tr' = calls is_log tr.
Proof.
  intros Hn n k0 Hok.
  rewrite (read_success_shape drv c sample_count sample_delay_ms result tr
             Hn Hok).
  fold n k0. eexists. eexists. split; [reflexivity|].
  split; [reflexivity|].
  destruct (read_pass_events_calls drv c sample_delay_ms (rev (seq k0 n)))
    as [H1 [H2 H3]].
  rewrite length_rev, length_seq in H1, H2.
  rewrite !calls_app, H1, H2, H3. fold k0.
  repeat split; try lia; destruct (sample_delay_ms >? 0); lia.
Qed.

Lemma read_success_history_witness :
  exists r tr',
    ADCChannel.read steady_driver channel0 3 10 zero_result []
      = Some (ESP_OK, r, tr')
    /\ tr' = [EvDelay 10; EvOneshotRead 1 0 ESP_OK 300;
              EvDelay 10; EvOneshotRead 1 0 ESP_OK 200;
              EvDelay 10; EvOneshotRead 1 0 ESP_OK 100]
    /\ calls is_delay tr' = 3%nat.
Proof.
  assert (H1 : 1 <= 3) by lia.
  assert (H2 : forall i, (i < Z.to_nat 3)%nat ->
            fst (drv_oneshot_read steady_driver
                   (calls is_oneshot_read [] + i)) = ESP_OK)
    by (intros; reflexivity).
  destruct (read_success_history steady_driver channel0 3 10 zero_result []
              H1 H2) as [r [tr' [Hr [Ht [_ [Hd _]]]]]].
  exists r, tr'. split; [exact Hr|]. split; [rewrite Ht; reflexivity|].
  rewrite Hd. reflexivity.
Defined.

(** The width is an [int], whatever the samples. *)
Lemma calculatePercWidth_int (data : list Z) (p : Z) :
  INT32_MIN <= fst (ADCChannel.calculatePercWidth data p) <= INT32_MAX.
Proof.
  destruct (Z.ltb_spec p 10).
  { rewrite (calculatePercWidth_guards _ p) by auto. cbn. 
    unfold INT32_MIN, INT32_MAX. lia. }
  destruct (Z.ltb_spec 90 p).
  { rewrite (calculatePercWidth_guards _ p) by lia. cbn.
    unfold INT32_MIN, INT32_MAX. lia. }
  destruct data as [|x data].
  { rewrite (calculatePercWidth_guards _ p) by auto. cbn.
    unfold INT32_MIN, INT32_MAX. lia. }
  rewrite (calculatePercWidth_in_range (x :: data) p) by (congruence || lia).
  cbv zeta. cbn [fst]. apply to_int32_range.
Qed.

(** X6: the statistics of a successful [read] for arbitrary samples: the
    average is the sum of the samples reduced modulo [2^32], divided by
    [sampleCount] as an unsigned number and converted to [int]; the
    minimum and the maximum are those of the samples together with the
    start values [INT32_MAX] and [INT32_MIN]; the two widths are the
    [int] results of [calculatePercWidth] at 30 and 60, wrap-around
    included.  Every field is a value an [int] holds when the samples
    are. *)
Theorem read_success_exact (drv : Driver) (c : ADCChannel.t)
  (sample_count sample_delay_ms : Z) (result : ADCReadResult) (tr : trace) :
  1 <= sample_count <= INT32_MAX ->
  let n := Z.to_nat sample_count in
  let k0 := calls is_oneshot_read tr in
  let vs := samples drv c k0 n in
  (forall i, (i < n)%nat -> fst (drv_oneshot_read drv (k0 + i)) = ESP_OK) ->
  exists r tr',
    ADCChannel.read drv c sample_count sample_delay_ms result tr
      = Some (ESP_OK, r, tr')
    /\ r = mkResult (to_int32 ((sum_list vs mod 2 ^ 32) / sample_count))
                    (fold_right Z.min INT32_MAX vs)
                    (fold_right Z.max INT32_MIN vs)
                    (fst (ADCChannel.calculatePercWidth vs 30))
                    (fst (ADCChannel.calculatePercWidth vs 60))
    /\ INT32_MIN <= average_mv r <= INT32_MAX
    /\ INT32_MIN <= p30_width_mv r <= INT32_MAX
    /\ INT32_MIN <= p60_width_mv r <= INT32_MAX
    /\ (Forall (fun v => INT32_MIN <= v <= INT32_MAX) vs ->
        INT32_MIN <= min_mv r <= INT32_MAX
        /\ INT32_MIN <= max_mv r <= INT32_MAX).
Proof.
  intros Hn n k0 vs Hok.
  rewrite (read_success_shape drv c sample_count sample_delay_ms result tr
             ltac:(lia) Hok).
  fold n k0 vs. eexists. eexists. split; [reflexivity|].
  split.
  { f_equal. unfold wrap_u32, INT32_MAX in *.
    now rewrite (Z.mod_small sample_count) by lia. }
  cbn [average_mv p30_width_mv p60_width_mv min_mv max_mv].
  split; [apply to_int32_range|].
  split; [apply calculatePercWidth_int|].
  split; [apply calculatePercWidth_int|].
  intros Hint.
  assert (Hvs : vs <> []).
  { intros E. apply (f_equal (@List.length Z)) in E. subst vs n.
    rewrite samples_length in E. simpl in E. lia. }
  destruct (fold_right_min_le vs INT32_MAX) as [Hm1 Hm2].
  destruct (fold_right_max_ge vs INT32_MIN) as [HM1 HM2].
  destruct vs as [|v vs']; [congruence|].
  inversion Hint as [|? ? Hv Hint']; subst.
  inversion Hm2 as [|? ? Hmv _]; subst.
  inversion HM2 as [|? ? HMv _]; subst.
  assert (Hlow : INT32_MIN <= fold_right Z.min INT32_MAX (v :: vs')).
  { clear - Hint. induction Hint as [|w l Hw _ IH]; simpl.
    - unfold INT32_MIN, INT32_MAX; lia.
    - lia. }
  assert (Hhigh : fold_right Z.max INT32_MIN (v :: vs') <= INT32_MAX).
  { clear - Hint. induction Hint as [|w l Hw _ IH]; simpl.
    - unfold INT32_MIN, INT32_MAX; lia.
    - lia. }
  lia.
Qed.

Lemma read_success_exact_witness :
  exists tr',
    ADCChannel.read extreme_samples channel0 3 0 zero_result [] =
      Some (ESP_OK,
            mkResult 715827882 INT32_MIN INT32_MAX (-1) 1, tr').
Proof.
  assert (H1 : 1 <= 3 <= INT32_MAX) by (unfold INT32_MAX; lia).
  assert (H2 : forall i, (i < Z.to_nat 3)%nat ->
            fst (drv_oneshot_read extreme_samples
                   (calls is_oneshot_read [] + i)) = ESP_OK)
    by (intros; reflexivity).
  destruct (read_success_exact extreme_samples channel0 3 0 zero_result []
              H1 H2) as [r [tr' [Hr [Hv _]]]].
  exists tr'. rewrite Hr, Hv. reflexivity.
Defined.

(** X7: when every sample lies in [0..INT32_MAX] and the sum is below
    [2^32], the result of a successful [read] is ordered:
    [min_mv <= average_mv <= max_mv]. *)
Theorem read_average_between_min_and_max (drv : Driver) (c : ADCChannel.t)
  (sample_count sample_delay_ms : Z) (result : ADCReadResult) (tr : trace) :
  1 <= sample_count <= INT32_MAX ->
  let n := Z.to_nat sample_count in
  let k0 := calls is_oneshot_read tr in
  let vs := samples drv c k0 n in
  (forall i, (i < n)%nat -> fst (drv_oneshot_read drv (k0 + i)) = ESP_OK) ->
  Forall (fun v => 0 <= v <= INT32_MAX) vs ->
  sum_list vs < 2 ^ 32 ->
  exists r tr',
    ADCChannel.read drv c sample_count sample_delay_ms result tr
      = Some (ESP_OK, r, tr')
    /\ min_mv r <= average_mv r <= max_mv r.
Proof.
  intros Hn n k0 vs Hok Hrange Hsum.
  rewrite (read_success_shape drv c sample_count sample_delay_ms result tr
             ltac:(lia) Hok).
  fold n k0 vs. eexists. eexists. split; [reflexivity|].
  cbn [min_mv average_mv max_mv].
  assert (Hlen : Z.of_nat (List.length vs) = sample_count)
    by (subst vs n; rewrite samples_length; lia).
  destruct (fold_right_min_le vs INT32_MAX) as [_ Hmin].
  destruct (fold_right_max_ge vs INT32_MIN) as [_ Hmax].
  set (lo := fold_right Z.min INT32_MAX vs) in *.
  set (hi := fold_right Z.max INT32_MIN vs) in *.
  assert (Hboth : Forall (fun v => lo <= v <= hi) vs).
  { rewrite Forall_forall in *. intros v Hv.
    split; [now apply Hmin|now apply Hmax]. }
  pose proof (sum_list_bounds vs lo hi Hboth) as Hb. rewrite Hlen in Hb.
  pose proof (sum_list_bounds vs 0 INT32_MAX Hrange) as Hb0.
  rewrite Hlen in Hb0.
  unfold wrap_u32, INT32_MAX in *.
  rewrite (Z.mod_small (sum_list vs)) by lia.
  rewrite (Z.mod_small sample_count) by lia.
  assert (Hq : lo <= sum_list vs / sample_count <= hi).
  { split.
    - apply Z.div_le_lower_bound; lia.
    - apply Z.div_le_upper_bound; lia. }
  assert (Hq0 : 0 <= sum_list vs / sample_count <= 2147483647).
  { split; [apply Z.div_pos; lia|apply Z.div_le_upper_bound; lia]. }
  unfold to_int32. rewrite Z.mod_small; lia.
Qed.

Lemma read_average_between_min_and_max_witness :
  exists r tr',
    ADCChannel.read steady_driver channel0 4 0 zero_result []
      = Some (ESP_OK, r, tr')
    /\ min_mv r <= average_mv r <= max_mv r.
Proof.
  assert (H1 : 1 <= 4 <= INT32_MAX) by (unfold INT32_MAX; lia).
  assert (H2 : forall i, (i < Z.to_nat 4)%nat ->
            fst (drv_oneshot_read steady_driver
                   (calls is_oneshot_read [] + i)) = ESP_OK)
    by (intros; reflexivity).
  assert (H3 : Forall (fun v => 0 <= v <= INT32_MAX)
                 (samples steady_driver channel0
                    (calls is_oneshot_read []) (Z.to_nat 4)))
    by (repeat constructor; discriminate).
  assert (H4 : sum_list (samples steady_driver channel0
                           (calls is_oneshot_read []) (Z.to_nat 4)) < 2 ^ 32)
    by reflexivity.
  exact (read_average_between_min_and_max steady_driver channel0 4 0
           zero_result [] H1 H2 H3 H4).
Defined.

(* ================================================================== *)
(** ** Further properties of [ADCUnit] and of the factories *)

(** One call of [getContinuousHandle], whatever the state of the unit:
    the handle returned, what is kept and what is added to the history. *)
Lemma getContinuousHandle_facts (drv : Driver) (u : ADCUnit.t) (tr : trace) :
  let '(h, u1, tr1) := ADCUnit.getContinuousHandle drv u tr in
  ((ADCUnit._continuous_initialized u1 = true
    /\ h = ADCUnit._cont_handle u1)
   \/ (ADCUnit._continuous_initialized u1 = false /\ h = nullptr))
  /\ ADCUnit._oneshot_handle u1 = ADCUnit._oneshot_handle u
  /\ ADCUnit._is_initialized u1 = ADCUnit._is_initialized u
  /\ ADCUnit._unit_id u1 = ADCUnit._unit_id u
  /\ (exists more,
        tr1 = more ++ tr
        /\ Forall (fun e => is_provisioning_call e = true) more)
  /\ (ADCUnit._continuous_initialized u1 = false ->
      incl (live_cont_handles tr1) (live_cont_handles tr))
  /\ (List.length (live_cont_handles tr1)
      <= List.length (live_cont_handles tr)
         + if ADCUnit._continuous_initialized u then 0
           else if ADCUnit._continuous_initialized u1 then 1 else 0)%nat.
Proof.
  destruct (ADCUnit._continuous_initialized u) eqn:Hf.
  - rewrite (getContinuousHandle_cached drv u tr Hf). rewrite Hf.
    split; [left; auto|]. do 3 (split; [reflexivity|]).
    split; [exists []; split; [reflexivity|constructor]|].
    split; [discriminate|lia].
  - unfold ADCUnit.getContinuousHandle.
    destruct (ensure_fresh drv u tr Hf)
      as [[Hne E]|[[H1 [Hne E]]|[H1 [H2 E]]]]; rewrite E.
    + destruct (Z.eqb_spec (fst (drv_cont_new_handle drv
                                   (calls is_cont_new_handle tr))) ESP_OK)
        as [|Hn]; [contradiction|].
      rewrite Hf.
      split; [right; auto|]. do 3 (split; [reflexivity|]).
      split; [eexists [_]; split; [reflexivity|repeat constructor]|].
      cbn [live_cont_handles].
      destruct (Z.eqb_spec (fst (drv_cont_new_handle drv
                                   (calls is_cont_new_handle tr))) ESP_OK);
        [contradiction|].
      split; [intros _; apply incl_refl|lia].
    + destruct (Z.eqb_spec (drv_cont_config drv (calls is_cont_config tr))
                  ESP_OK); [contradiction|].
      cbn [ADCUnit._continuous_initialized ADCUnit._oneshot_handle
           ADCUnit._is_initialized ADCUnit._unit_id].
      split; [right; auto|]. do 3 (split; [reflexivity|]).
      split; [eexists [_; _; _]; split; [reflexivity|repeat constructor]|].
      cbn [live_cont_handles]. change (ESP_OK =? ESP_OK) with true.
      cbv iota. cbn [remove].
      destruct (Z.eq_dec _ _); [|congruence].
      split; [intros _; apply incl_remove|].
      rewrite Nat.add_0_r. apply remove_length_le.
    + change (ESP_OK =? ESP_OK) with true. cbv iota.
      cbn [ADCUnit._continuous_initialized ADCUnit._oneshot_handle
           ADCUnit._is_initialized ADCUnit._unit_id ADCUnit._cont_handle].
      split; [left; auto|]. do 3 (split; [reflexivity|]).
      split; [eexists [_; _]; split; [reflexivity|repeat constructor]|].
      cbn [live_cont_handles]. change (ESP_OK =? ESP_OK) with true.
      cbv iota. cbn [List.length].
      split; [discriminate|lia].
Qed.

(** X8: calls of [getContinuousHandle], however many and however they
    end, never change the single-shot handle, the unit id or the
    initialisation flag of the unit, and they reach the driver through
    the three provisioning entry points only. *)
Theorem getContinuousHandle_keeps_oneshot_side (drv : Driver) (k : nat) :
  forall (u : ADCUnit.t) (tr : trace),
  let '(uk, trk) := after_calls drv k u tr in
  ADCUnit._oneshot_handle uk = ADCUnit._oneshot_handle u
  /\ ADCUnit._is_initialized uk = ADCUnit._is_initialized u
  /\ ADCUnit._unit_id uk = ADCUnit._unit_id u
  /\ exists more,
       trk = more ++ tr
       /\ Forall (fun e => is_provisioning_call e = true) more.
Proof.
  induction k as [|k IH]; intros u tr; simpl.
  - repeat split. exists []. split; [reflexivity|constructor].
  - pose proof (getContinuousHandle_facts drv u tr) as H1.
    destruct (ADCUnit.getContinuousHandle drv u tr) as [[h u1] tr1].
    destruct H1 as [_ [Ho [Hi [Hu [[more1 [Hm1 Hp1]] _]]]]].
    specialize (IH u1 tr1).
    destruct (after_calls drv k u1 tr1) as [uk trk].
    destruct IH as [Ho' [Hi' [Hu' [more [Hm Hp]]]]].
    repeat split; try congruence.
    exists (more ++ more1). split.
    + rewrite Hm, Hm1. now rewrite app_assoc.
    + apply Forall_app. split; assumption.
Qed.

(** One call, when the handle the driver hands out is not one already
    allocated: the allocated handles afterwards are those before, plus
    the unit's handle when the call provisions the unit. *)
Lemma getContinuousHandle_live (drv : Driver) (u : ADCUnit.t) (tr : trace) :
  ~ In (snd (drv_cont_new_handle drv (calls is_cont_new_handle tr)))
       (live_cont_handles tr) ->
  let '(_, u1, tr1) := ADCUnit.getContinuousHandle drv u tr in
  live_cont_handles tr1
  = if ADCUnit._continuous_initialized u then live_cont_handles tr
    else if ADCUnit._continuous_initialized u1
         then ADCUnit._cont_handle u1 :: live_cont_handles tr
         else live_cont_handles tr.
Proof.
  intros Hfresh.
  destruct (ADCUnit._continuous_initialized u) eqn:Hf.
  - now rewrite (getContinuousHandle_cached drv u tr Hf).
  - unfold ADCUnit.getContinuousHandle.
    destruct (ensure_fresh drv u tr Hf)
      as [[Hne E]|[[H1 [Hne E]]|[H1 [H2 E]]]]; rewrite E.
    + destruct (Z.eqb_spec (fst (drv_cont_new_handle drv
                                   (calls is_cont_new_handle tr))) ESP_OK)
        as [|Hn]; [contradiction|].
      rewrite Hf. cbn [live_cont_handles].
      destruct (Z.eqb_spec (fst (drv_cont_new_handle drv
                                   (calls is_cont_new_handle tr))) ESP_OK);
        [contradiction|reflexivity].
    + destruct (Z.eqb_spec (drv_cont_config drv (calls is_cont_config tr))
                  ESP_OK); [contradiction|].
      cbn [ADCUnit._continuous_initialized live_cont_handles].
      change (ESP_OK =? ESP_OK) with true. cbv iota. cbn [remove].
      destruct (Z.eq_dec _ _); [|congruence].
      now apply notin_remove.
    + change (ESP_OK =? ESP_OK) with true. cbv iota.
      cbn [ADCUnit._continuous_initialized ADCUnit._cont_handle
           live_cont_handles].
      change (ESP_OK =? ESP_OK) with true. reflexivity.
Qed.

(** X9: retries do not pile up handles.  Over any number of calls of
    [getContinuousHandle] the number of streaming handles that are
    allocated and not released never grows by more than one, and grows
    only when the calls take the unit from unprovisioned to provisioned;
    on a unit that is already provisioned the calls make no driver call
    at all.  When the driver never hands out a handle that is already
    allocated, the count is exact: the allocated handles afterwards are
    those before, plus the unit's streaming handle if the calls
    provisioned the unit, and nothing else. *)
Theorem getContinuousHandle_retries_do_not_leak (drv : Driver) (k : nat) :
  forall (u : ADCUnit.t) (tr : trace),
  let '(uk, trk) := after_calls drv k u tr in
  (List.length (live_cont_handles trk)
   <= List.length (live_cont_handles tr)
      + if ADCUnit._continuous_initialized u then 0
        else if ADCUnit._continuous_initialized uk then 1 else 0)%nat
  /\ (ADCUnit._continuous_initialized u = true -> uk = u /\ trk = tr)
  /\ ((forall j, ~ In (snd (drv_cont_new_handle drv j))
                     (live_cont_handles tr)) ->
      live_cont_handles trk
      = if ADCUnit._continuous_initialized u then live_cont_handles tr
        else if ADCUnit._continuous_initialized uk
             then ADCUnit._cont_handle uk :: live_cont_handles tr
             else live_cont_handles tr).
Proof.
  induction k as [|k IH]; intros u tr; simpl.
  - split; [destruct (ADCUnit._continuous_initialized u); lia|].
    split; [auto|]. intros _.
    now destruct (ADCUnit._continuous_initialized u).
  - pose proof (getContinuousHandle_facts drv u tr) as H1.
    pose proof (getContinuousHandle_provisioning drv u tr) as H2.
    pose proof (getContinuousHandle_live drv u tr) as H3.
    pose proof (getContinuousHandle_cached drv u tr) as H4.
    destruct (ADCUnit.getContinuousHandle drv u tr) as [[h u1] tr1].
    destruct H1 as [_ [_ [_ [_ [_ [_ Hlen]]]]]].
    destruct H2 as [_ Hmono].
    specialize (IH u1 tr1).
    destruct (after_calls drv k u1 tr1) as [uk trk] eqn:Ek.
    destruct IH as [IHlen [IHsame IHlive]].
    destruct (ADCUnit._continuous_initialized u) eqn:Hf.
    + specialize (H4 eq_refl). inversion H4; subst h u1 tr1.
      destruct (IHsame Hf) as [-> ->].
      split; [lia|]. split; [auto|]. reflexivity.
    + split; [|split; [discriminate|]].
      * destruct (ADCUnit._continuous_initialized u1) eqn:Hf1.
        -- rewrite (after_calls_cached drv k u1 tr1 Hf1) in Ek.
           inversion Ek; subst. rewrite Hf1. lia.
        -- lia.
      * intros Hfresh. specialize (H3 (Hfresh _)).
        destruct (ADCUnit._continuous_initialized u1) eqn:Hf1.
        -- destruct (IHsame eq_refl) as [-> ->]. now rewrite Hf1.
        -- rewrite H3 in IHlive. apply IHlive. exact Hfresh.
Qed.

Lemma getContinuousHandle_retries_do_not_leak_witness :
  let '(uk, trk) := after_calls first_config_fails 3 unit0 [] in
  ADCUnit._continuous_initialized uk = true
  /\ live_cont_handles trk = [ADCUnit._cont_handle uk]
  /\ calls is_cont_new_handle trk = 2%nat.
Proof.
  pose proof (getContinuousHandle_retries_do_not_leak first_config_fails 3
                unit0 []) as H.
  destruct (after_calls first_config_fails 3 unit0 []) as [uk trk] eqn:E.
  destruct H as [_ [_ H]].
  assert (Hfresh : forall j,
            ~ In (snd (drv_cont_new_handle first_config_fails j))
                 (live_cont_handles [])) by (intros j []).
  specialize (H Hfresh).
  vm_compute in E. inversion E; subst uk trk.
  split; [reflexivity|]. split; [exact H|reflexivity].
Defined.

(** X10: [ADCUnit::create] returns a unit exactly when the driver creates
    the single-shot unit; the unit returned is initialised, carries the
    driver's handle and no streaming handle, and only the one driver
    call was made; otherwise one error is logged, the destructor runs on
    the rejected object and null is returned. *)
Theorem ADCUnit_create_outcome (dtor : ADCUnit.t -> trace -> trace)
  (drv : Driver) (unit_id : Z) (tr : trace) :
  let err := fst (drv_oneshot_new_unit drv (calls is_oneshot_new_unit tr)) in
  let h := snd (drv_oneshot_new_unit drv (calls is_oneshot_new_unit tr)) in
  (err = ESP_OK
   /\ ADCUnit.create dtor drv unit_id tr
      = (Some (ADCUnit.mk true unit_id nullptr false h),
         EvOneshotNewUnit unit_id ESP_OK h :: tr))
  \/ (err <> ESP_OK
      /\ ADCUnit.create dtor drv unit_id tr
         = (None,
            dtor (ADCUnit.mk false unit_id nullptr false h)
              (EvLog LOGE "Failed to create oneshot unit"
               :: EvOneshotNewUnit unit_id err h :: tr))).
Proof.
  intros err h. subst err h.
  unfold ADCUnit.create, ADCUnit.ADCUnit, adc_oneshot_new_unit.
  destruct (drv_oneshot_new_unit drv (calls is_oneshot_new_unit tr))
    as [err h]. cbn [fst snd].
  destruct (Z.eqb_spec err ESP_OK) as [->|Hne]; [left|right]; auto.
Qed.

(** The constructor of a channel, by what the driver answers.  The
    calibration handle of an object whose configuration was refused is
    whatever the member held before the constructor ran. *)
Lemma ADCChannel_ctor_cases (drv : Driver) (indeterminate : handle)
  (unit : ADCUnit.t) (channel atten : Z) (tr : trace) :
  let cfg := drv_oneshot_config_channel drv
               (calls is_oneshot_config_channel tr) in
  let cali := drv_cali_create drv (calls is_cali_create tr) in
  let oneshot := ADCUnit._oneshot_handle unit in
  let '(h, unit1, tr1) := ADCUnit.getContinuousHandle drv unit tr in
  let ev_cfg := EvOneshotConfigChannel oneshot channel atten cfg in
  let ev_cali := EvCaliCreate (ADCUnit._unit_id unit) channel atten
                   (fst cali) (snd cali) in
  (cfg <> ESP_OK
   /\ ADCChannel.ADCChannel drv indeterminate unit channel atten tr
      = (ADCChannel.mk oneshot h channel indeterminate false, unit1,
         EvLog LOGE "ADCChannel - Failed to configure oneshot channel"
         :: ev_cfg :: tr1))
  \/ (cfg = ESP_OK /\ fst cali <> ESP_OK
      /\ ADCChannel.ADCChannel drv indeterminate unit channel atten tr
         = (ADCChannel.mk oneshot h channel (snd cali) false, unit1,
            EvLog LOGE "ADCChannel - Failed to create calibration scheme"
            :: ev_cali :: ev_cfg :: tr1))
  \/ (cfg = ESP_OK /\ fst cali = ESP_OK
      /\ ADCChannel.ADCChannel drv indeterminate unit channel atten tr
         = (ADCChannel.mk oneshot h channel (snd cali) true, unit1,
            ev_cali :: ev_cfg :: tr1)).
Proof.
  intros cfg cali oneshot. subst cfg cali oneshot.
  pose proof (getContinuousHandle_calls_other drv unit tr
                is_oneshot_config_channel) as Hc1.
  pose proof (getContinuousHandle_calls_other drv unit tr is_cali_create)
    as Hc2.
  pose proof (getContinuousHandle_facts drv unit tr) as Hfacts.
  unfold ADCChannel.ADCChannel.
  destruct (ADCUnit.getContinuousHandle drv unit tr) as [[h u1] tr1].
  destruct Hfacts as [_ [_ [_ [Hid _]]]].
  cbn [fst snd] in *. cbv zeta.
  unfold adc_oneshot_config_channel, ADCUnit.getOneshotHandle,
    ADCUnit.getUnitId.
  rewrite Hc1 by reflexivity. rewrite Hid.
  destruct (Z.eqb_spec (drv_oneshot_config_channel drv
                          (calls is_oneshot_config_channel tr)) ESP_OK)
    as [Ecfg|Hcfg]; cbn [negb].
  - unfold adc_cali_create_scheme_curve_fitting.
    rewrite calls_cons. cbn [is_cali_create]. rewrite Hc2 by reflexivity.
    destruct (drv_cali_create drv (calls is_cali_create tr)) as [e2 cali].
    cbn [fst snd].
    destruct (Z.eqb_spec e2 ESP_OK) as [->|Hne2]; cbn [negb].
    + right; right. auto.
    + right; left. auto.
  - left. auto.
Qed.

(** X11: [ADCChannel::create] returns a channel exactly when both the
    single-shot configuration and the calibration scheme succeed; it then
    holds the unit's single-shot handle, the channel number and the
    calibration handle of the driver.  A refused configuration ends the
    construction before any calibration call, so the rejected object's
    calibration handle is the value the member held before the
    constructor ran, which the source never sets.  In either failure one
    error is logged, the destructor runs on the rejected object and null
    is returned; the streaming provisioning made on the way is not undone
    (the unit is returned as [getContinuousHandle] left it). *)
Theorem ADCChannel_create_outcome (dtor : ADCChannel.t -> trace -> trace)
  (drv : Driver) (indeterminate : handle) (unit : ADCUnit.t)
  (channel atten : Z) (tr : trace) :
  let cfg := drv_oneshot_config_channel drv
               (calls is_oneshot_config_channel tr) in
  let cali := drv_cali_create drv (calls is_cali_create tr) in
  let oneshot := ADCUnit._oneshot_handle unit in
  let '(h, unit1, tr1) := ADCUnit.getContinuousHandle drv unit tr in
  let ev_cfg := EvOneshotConfigChannel oneshot channel atten cfg in
  let ev_cali := EvCaliCreate (ADCUnit._unit_id unit) channel atten
                   (fst cali) (snd cali) in
  (cfg = ESP_OK /\ fst cali = ESP_OK
   /\ ADCChannel.create dtor drv indeterminate unit channel atten tr
      = (Some (ADCChannel.mk oneshot h channel (snd cali) true), unit1,
         ev_cali :: ev_cfg :: tr1))
  \/ (cfg = ESP_OK /\ fst cali <> ESP_OK
      /\ ADCChannel.create dtor drv indeterminate unit channel atten tr
         = (None, unit1,
            dtor (ADCChannel.mk oneshot h channel (snd cali) false)
              (EvLog LOGE "ADCChannel - Failed to create calibration scheme"
               :: ev_cali :: ev_cfg :: tr1)))
  \/ (cfg <> ESP_OK
      /\ ADCChannel.create dtor drv indeterminate unit channel atten tr
         = (None, unit1,
            dtor (ADCChannel.mk oneshot h channel indeterminate false)
              (EvLog LOGE "ADCChannel - Failed to configure oneshot channel"
               :: ev_cfg :: tr1))).
Proof.
  intros cfg cali oneshot.
  pose proof (ADCChannel_ctor_cases drv indeterminate unit channel atten tr)
    as H.
  cbv zeta in H. fold cfg cali oneshot in H.
  unfold ADCChannel.create.
  destruct (ADCUnit.getContinuousHandle drv unit tr) as [[h u1] tr1].
  cbv zeta.
  destruct H as [[Hc E]|[[Hc [Hk E]]|[Hc [Hk E]]]]; rewrite E;
    cbn [ADCChannel.isInitialized ADCChannel._is_initialized]; auto.
Qed.

(** X12: channels created on one unit share its streaming handle: once
    a creation has left the unit provisioned, the next channel created
    on it gets the same streaming and single-shot handles, leaves the
    unit unchanged and makes no provisioning call. *)
Theorem channels_share_streaming_handle
  (dtor : ADCChannel.t -> trace -> trace) (drv : Driver)
  (i1 i2 : handle)
  (unit u1 u2 : ADCUnit.t) (ch1 at1 ch2 at2 : Z) (tr tr1 tr2 : trace)
  (c1 c2 : ADCChannel.t) :
  ADCChannel.create dtor drv i1 unit ch1 at1 tr = (Some c1, u1, tr1) ->
  ADCUnit._continuous_initialized u1 = true ->
  ADCChannel.create dtor drv i2 u1 ch2 at2 tr1 = (Some c2, u2, tr2) ->
  ADCChannel._cont_handle c2 = ADCChannel._cont_handle c1
  /\ ADCChannel._oneshot_handle c2 = ADCChannel._oneshot_handle c1
  /\ u2 = u1
  /\ calls is_provisioning_call tr2 = calls is_provisioning_call tr1.
Proof.
  intros E1 Hf E2.
  pose proof (ADCChannel_ctor_cases drv i1 unit ch1 at1 tr) as H1.
  pose proof (getContinuousHandle_facts drv unit tr) as F1.
  cbv zeta in H1. unfold ADCChannel.create in E1.
  destruct (ADCUnit.getContinuousHandle drv unit tr) as [[h u1'] tr1'].
  destruct F1 as [Hh [Ho _]].
  destruct H1 as [[_ H1]|[[_ [_ H1]]|[_ [_ H1]]]]; rewrite H1 in E1;
    cbn [ADCChannel.isInitialized ADCChannel._is_initialized] in E1;
    try discriminate.
  inversion E1; subst c1 u1' tr1. clear E1 H1.
  set (tr1 := EvCaliCreate _ _ _ _ _ :: _) in *.
  pose proof (ADCChannel_ctor_cases drv i2 u1 ch2 at2 tr1) as H2.
  cbv zeta in H2. unfold ADCChannel.create in E2.
  rewrite (getContinuousHandle_cached drv u1 tr1 Hf) in H2.
  destruct H2 as [[_ H2]|[[_ [_ H2]]|[_ [_ H2]]]]; rewrite H2 in E2;
    cbn [ADCChannel.isInitialized ADCChannel._is_initialized] in E2;
    try discriminate.
  inversion E2; subst c2 u2 tr2. clear E2 H2.
  cbn [ADCChannel._cont_handle ADCChannel._oneshot_handle].
  destruct Hh as [[_ Hh]|[Hh _]]; [|congruence].
  repeat split; try congruence; rewrite !calls_cons; reflexivity.
Qed.

Lemma channels_share_streaming_handle_witness :
  exists c1 u1 tr1 c2 tr2,
    ADCChannel.create no_dtor steady_driver nullptr unit0 0
              ADC_ATTEN_DB_6 []
      = (Some c1, u1, tr1)
    /\ ADCChannel.create no_dtor steady_driver nullptr u1 3
              ADC_ATTEN_DB_12 tr1
       = (Some c2, u1, tr2)
    /\ ADCChannel._cont_handle c2 = ADCChannel._cont_handle c1
    /\ calls is_provisioning_call tr2 = calls is_provisioning_call tr1.
Proof.
  destruct (ADCChannel.create no_dtor steady_driver nullptr unit0 0
              ADC_ATTEN_DB_6 [])
    as [[[c1|] u1] tr1] eqn:E1; [|discriminate E1].
  assert (Hf : ADCUnit._continuous_initialized u1 = true)
    by (vm_compute in E1; inversion E1; reflexivity).
  destruct (ADCChannel.create no_dtor steady_driver nullptr u1 3
              ADC_ATTEN_DB_12 tr1)
    as [[[c2|] u2] tr2] eqn:E2.
  - destruct (channels_share_streaming_handle no_dtor steady_driver
                nullptr nullptr unit0 u1
                u2 0 ADC_ATTEN_DB_6 3 ADC_ATTEN_DB_12 [] tr1 tr2 c1 c2 E1 Hf
                E2) as [Hc [_ [Hu Hp]]].
    subst u2. exists c1, u1, tr1, c2, tr2. repeat split; assumption.
  - exfalso. vm_compute in E1. inversion E1; subst.
    vm_compute in E2. discriminate E2.
Defined.

(* ================================================================== *)
(** ** Further properties of [sampleForDuration] *)

Lemma still_sampling_zero (now start_time duration_ms : Z) :
  duration_ms <= 0 ->
  ADCChannel.still_sampling now start_time duration_ms = false.
Proof.
  intros Hd. unfold ADCChannel.still_sampling, wrap_u64.
  apply Z.ltb_ge.
  pose proof (Z.mod_pos_bound (now - start_time) (2 ^ 64) ltac:(lia)).
  assert (0 <= (now - start_time) mod 2 ^ 64 / 1000)
    by (apply Z.div_pos; lia).
  lia.
Qed.

(** The loop talks to the clock, the streaming read and the logger
    only. *)
Lemma poll_loop_calls_other (drv : Driver) (c : ADCChannel.t)
  (start_time duration_ms : Z) (f : event -> bool) (fuel : nat) :
  (forall t, f (EvTimer t) = false) ->
  (forall h err data, f (EvContRead h err data) = false) ->
  (forall lvl msg, f (EvLog lvl msg) = false) ->
  forall (buffer : list byte) (voltages : list Z) (tr : trace)
         (buffer' : list byte) (voltages' : list Z) (tr' : trace),
  ADCChannel.poll_loop drv c start_time duration_ms fuel buffer voltages tr
    = Some (buffer', voltages', tr') ->
  calls f tr' = calls f tr.
Proof.
  intros Ht Hr Hl.
  induction fuel as [|fuel IH]; intros buffer voltages tr buffer' voltages'
    tr' H; [discriminate|].
  simpl in H. unfold esp_timer_get_time in H.
  destruct (ADCChannel.still_sampling _ _ _).
  - set (tr0 := EvTimer _ :: tr) in H.
    pose proof (poll_body_spec drv c buffer voltages tr0) as Hb.
    cbv zeta in Hb.
    destruct (ADCChannel.poll_body drv c buffer voltages tr0)
      as [[buffer1 voltages1] tr1].
    rewrite (IH _ _ _ _ _ _ H).
    assert (E : tr1 = poll_warning drv (calls is_cont_read tr0)
                      ++ EvContRead (ADCChannel._cont_handle c)
                           (fst (drv_cont_read drv (calls is_cont_read tr0)))
                           (firstn 1024
                              (snd (drv_cont_read drv
                                      (calls is_cont_read tr0))))
                         :: tr0) by (now inversion Hb).
    rewrite E, calls_app, poll_warning_calls by assumption.
    subst tr0. now rewrite !calls_cons, Hr, Ht.
  - inversion H; subst. now rewrite calls_cons, Ht.
Qed.

(** X13: every return of [sampleForDuration] leaves the resources
    balanced: the buffer is freed exactly when it was obtained, the
    driver is started exactly when there is a buffer and stopped exactly
    when the start succeeded; and when there is no buffer or the start
    fails, the result is empty, one error is logged and neither the clock
    nor the streaming read is touched. *)
Theorem sampleForDuration_balanced (drv : Driver) (c : ADCChannel.t)
  (duration_ms : Z) (fuel : nat) (tr tr' : trace) (voltages : list Z) :
  ADCChannel.sampleForDuration drv c duration_ms fuel tr
    = Some (voltages, tr') ->
  let got_buffer := drv_malloc drv (calls is_malloc tr) in
  let started :=
    got_buffer && (drv_cont_start drv (calls is_cont_start tr) =? ESP_OK) in
  calls is_malloc tr' = S (calls is_malloc tr)
  /\ calls is_free tr'
     = (calls is_free tr + if got_buffer then 1 else 0)%nat
  /\ calls is_cont_start tr'
     = (calls is_cont_start tr + if got_buffer then 1 else 0)%nat
  /\ calls is_cont_stop tr'
     = (calls is_cont_stop tr + if started then 1 else 0)%nat
  /\ (started = false ->
      voltages = []
      /\ calls is_cont_read tr' = calls is_cont_read tr
      /\ calls is_timer tr' = calls is_timer tr
      /\ calls is_log tr' = S (calls is_log tr)).
Proof.
  intros H got_buffer started. subst started got_buffer.
  unfold ADCChannel.sampleForDuration, malloc, adc_continuous_start,
    esp_timer_get_time in H.
  destruct (drv_malloc drv (calls is_malloc tr)) eqn:Hm; cbn [negb] in H.
  - rewrite calls_cons in H. cbn [is_cont_start] in H.
    destruct (Z.eqb_spec (drv_cont_start drv (calls is_cont_start tr))
                ESP_OK) as [Hs|Hs]; cbn [negb andb] in H |- *.
    + destruct (ADCChannel.poll_loop _ _ _ _ _ _ _ _)
        as [[[buffer1 voltages1] tr1]|] eqn:Ep; [|discriminate].
      pose proof (poll_loop_calls_other _ _ _ _ is_malloc _
                    ltac:(reflexivity) ltac:(reflexivity) ltac:(reflexivity)
                    _ _ _ _ _ _ Ep) as C1.
      pose proof (poll_loop_calls_other _ _ _ _ is_free _
                    ltac:(reflexivity) ltac:(reflexivity) ltac:(reflexivity)
                    _ _ _ _ _ _ Ep) as C2.
      pose proof (poll_loop_calls_other _ _ _ _ is_cont_start _
                    ltac:(reflexivity) ltac:(reflexivity) ltac:(reflexivity)
                    _ _ _ _ _ _ Ep) as C3.
      pose proof (poll_loop_calls_other _ _ _ _ is_cont_stop _
                    ltac:(reflexivity) ltac:(reflexivity) ltac:(reflexivity)
                    _ _ _ _ _ _ Ep) as C4.
      rewrite !calls_cons in C1, C2, C3, C4.
      cbn [is_malloc is_free is_cont_start is_cont_stop] in C1, C2, C3, C4.
      unfold adc_continuous_stop, free, ESP_LOGE in H.
      destruct (negb _) in H; inversion H; subst;
        rewrite !calls_cons;
        cbn [is_malloc is_free is_cont_start is_cont_stop];
        rewrite ?C1, ?C2, ?C3, ?C4;
        (repeat split; try lia); discriminate.
    + inversion H; subst. unfold free, ESP_LOGE.
      rewrite !calls_cons. cbn.
      repeat split; try lia.
  - inversion H; subst. unfold ESP_LOGE. rewrite !calls_cons. cbn.
    repeat split; try lia.
Qed.

Lemma sampleForDuration_balanced_witness :
  exists tr',
    ADCChannel.sampleForDuration start_refused channel0 5 10 []
      = Some ([], tr')
    /\ calls is_malloc tr' = 1%nat /\ calls is_free tr' = 1%nat
    /\ calls is_cont_start tr' = 1%nat /\ calls is_cont_stop tr' = 0%nat
    /\ calls is_cont_read tr' = 0%nat.
Proof.
  destruct (ADCChannel.sampleForDuration start_refused channel0 5 10 [])
    as [[voltages tr']|] eqn:E; [|discriminate E].
  destruct (sampleForDuration_balanced start_refused channel0 5 10 [] tr'
              voltages E) as [H1 [H2 [H3 [H4 H5]]]].
  destruct (H5 eq_refl) as [Hv [Hr _]].
  subst voltages. exists tr'. repeat split; assumption.
Defined.

(** X14: a duration of 0 captures nothing: with a buffer and a started
    driver the function reads the clock twice (start time, first loop
    test), polls the driver not once, stops it and returns the empty
    sequence, whatever the clock says. *)
Theorem sampleForDuration_zero_duration (drv : Driver) (c : ADCChannel.t)
  (duration_ms : Z) (fuel : nat) (tr : trace) :
  duration_ms <= 0 ->
  drv_malloc drv (calls is_malloc tr) = true ->
  drv_cont_start drv (calls is_cont_start tr) = ESP_OK ->
  exists tr',
    ADCChannel.sampleForDuration drv c duration_ms (S fuel) tr
      = Some ([], tr')
    /\ calls is_cont_read tr' = calls is_cont_read tr
    /\ calls is_timer tr' = (calls is_timer tr + 2)%nat
    /\ calls is_cont_stop tr' = S (calls is_cont_stop tr)
    /\ calls is_free tr' = S (calls is_free tr).
Proof.
  intros Hd Hmalloc Hstart.
  unfold ADCChannel.sampleForDuration, malloc, adc_continuous_start,
    esp_timer_get_time.
  rewrite Hmalloc. cbn [negb].
  rewrite calls_cons. cbn [is_cont_start]. rewrite Hstart.
  change (ESP_OK =? ESP_OK) with true. cbn [negb].
  cbn [ADCChannel.poll_loop]. unfold esp_timer_get_time.
  rewrite still_sampling_zero by assumption.
  unfold adc_continuous_stop, free, ESP_LOGE.
  eexists. split; [reflexivity|].
  destruct (negb _); rewrite !calls_cons; cbn; repeat split; lia.
Qed.

Lemma sampleForDuration_zero_duration_witness :
  exists tr',
    ADCChannel.sampleForDuration bursty_stream channel0 0 1 []
      = Some ([], tr')
    /\ calls is_cont_read tr' = 0%nat.
Proof.
  assert (Hd : 0 <= 0) by lia.
  assert (Hm : drv_malloc bursty_stream (calls is_malloc []) = true)
    by reflexivity.
  assert (Hs : drv_cont_start bursty_stream (calls is_cont_start []) = ESP_OK)
    by reflexivity.
  destruct (sampleForDuration_zero_duration bursty_stream channel0 0 0 []
              Hd Hm Hs) as [tr' [Hr [Hc _]]].
  exists tr'. split; [exact Hr|exact Hc].
Defined.

(** X15: the loop ends at the first clock reading that is a full
    duration past the start: if the [N]-th reading from now is outside
    the window, the loop returns after at most [N] polls, given fuel for
    them. *)
Theorem poll_loop_terminates (drv : Driver) (c : ADCChannel.t)
  (start_time duration_ms : Z) (N : nat) :
  forall (fuel : nat) (buffer : list byte) (voltages : list Z) (tr : trace),
  ADCChannel.still_sampling (drv_timer drv (calls is_timer tr + N))
    start_time duration_ms = false ->
  (N < fuel)%nat ->
  exists buffer' voltages' tr',
    ADCChannel.poll_loop drv c start_time duration_ms fuel buffer voltages tr
      = Some (buffer', voltages', tr')
    /\ (calls is_cont_read tr' <= calls is_cont_read tr + N)%nat.
Proof.
  induction N as [|N IH]; intros fuel buffer voltages tr Hout Hfuel;
    (destruct fuel as [|fuel]; [lia|]);
    simpl ADCChannel.poll_loop; unfold esp_timer_get_time.
  - rewrite Nat.add_0_r in Hout. rewrite Hout.
    do 3 eexists. split; [reflexivity|]. rewrite calls_cons. simpl. lia.
  - destruct (ADCChannel.still_sampling
                (drv_timer drv (calls is_timer tr)) start_time duration_ms).
    + set (tr0 := EvTimer (drv_timer drv (calls is_timer tr)) :: tr).
      pose proof (poll_body_spec drv c buffer voltages tr0) as Hb.
      cbv zeta in Hb.
      destruct (ADCChannel.poll_body drv c buffer voltages tr0)
        as [[buffer1 voltages1] tr1].
      assert (E : tr1 = poll_warning drv (calls is_cont_read tr0)
                        ++ EvContRead (ADCChannel._cont_handle c)
                             (fst (drv_cont_read drv
                                     (calls is_cont_read tr0)))
                             (firstn 1024
                                (snd (drv_cont_read drv
                                        (calls is_cont_read tr0))))
                           :: tr0) by (now inversion Hb).
      assert (Ht : calls is_timer tr1 = S (calls is_timer tr)).
      { rewrite E, calls_app, poll_warning_calls by reflexivity.
        subst tr0. now rewrite !calls_cons. }
      assert (Hr : calls is_cont_read tr1 = S (calls is_cont_read tr)).
      { rewrite E, calls_app, poll_warning_calls by reflexivity.
        subst tr0. now rewrite !calls_cons. }
      destruct (IH fuel buffer1 voltages1 tr1) as [b' [v' [t' [Hp Hc]]]].
      * rewrite Ht.
        now replace (S (calls is_timer tr) + N)%nat
          with (calls is_timer tr + S N)%nat by lia.
      * lia.
      * exists b', v', t'. split; [exact Hp|]. lia.
    + do 3 eexists. split; [reflexivity|]. rewrite calls_cons. simpl. lia.
Qed.

Lemma poll_loop_terminates_witness :
  exists buffer' voltages' tr',
    ADCChannel.poll_loop bursty_stream channel0 0 5 10 (repeat x00 1024) []
      [EvTimer 0] = Some (buffer', voltages', tr')
    /\ (calls is_cont_read tr' <= 4)%nat.
Proof.
  assert (Hout : ADCChannel.still_sampling
                   (drv_timer bursty_stream (calls is_timer [EvTimer 0] + 4))
                   0 5 = false) by reflexivity.
  assert (Hfuel : (4 < 10)%nat) by lia.
  exact (poll_loop_terminates bursty_stream channel0 0 5 4 10
           (repeat x00 1024) [] [EvTimer 0] Hout Hfuel).
Defined.

Lemma raw_reading_range (lo hi : byte) :
  0 <= ADCChannel.raw_reading lo hi <= 4095.
Proof.
  rewrite raw_reading_value.
  pose proof (byte_val_range lo).
  pose proof (Z.mod_pos_bound (byte_val hi) 16 ltac:(lia)). lia.
Qed.

Lemma div2_le_half (n : nat) : (n <= 1024 -> Nat.div2 (n + 1) <= 512)%nat.
Proof.
  intros Hn. rewrite Nat.div2_div.
  apply Nat.lt_succ_r, Nat.Div0.div_lt_upper_bound. lia.
Qed.

(** X16: one poll appends at most 512 samples, each the calibration of a
    12-bit code ([0..4095]), and none when the read failed; a buffer of
    1024 bytes stays one of 1024 bytes. *)
Theorem poll_body_appends_codes (drv : Driver) (c : ADCChannel.t)
  (buffer : list byte) (voltages : list Z) (tr : trace) :
  let '(buffer', voltages', _) :=
    ADCChannel.poll_body drv c buffer voltages tr in
  exists codes,
    voltages' = voltages
                ++ map (adc_cali_raw_to_voltage drv
                          (ADCChannel._cali_handle c)) codes
    /\ (List.length codes <= 512)%nat
    /\ Forall (fun raw => 0 <= raw <= 4095) codes
    /\ (fst (drv_cont_read drv (calls is_cont_read tr)) <> ESP_OK ->
        codes = [])
    /\ (List.length buffer = 1024%nat -> List.length buffer' = 1024%nat).
Proof.
  rewrite poll_body_spec. cbv zeta.
  set (data := firstn 1024 (snd (drv_cont_read drv (calls is_cont_read tr)))).
  assert (Hlen : (List.length data <= 1024)%nat)
    by (subst data; apply firstn_le_length).
  assert (Hbuf : List.length buffer = 1024%nat ->
                 List.length (data ++ skipn (List.length data) buffer)
                 = 1024%nat).
  { intros Hb. rewrite length_app, length_skipn. lia. }
  destruct (Z.eqb_spec (fst (drv_cont_read drv (calls is_cont_read tr)))
              ESP_OK) as [Hok|Hne].
  - exists (map (fun k =>
                   ADCChannel.raw_reading
                     (nth (2 * k) (data ++ skipn (List.length data) buffer)
                        x00)
                     (nth (2 * k + 1)
                        (data ++ skipn (List.length data) buffer) x00))
              (seq 0 (Nat.div2 (List.length data + 1)))).
    split; [now rewrite map_map|].
    split; [rewrite length_map, length_seq; now apply div2_le_half|].
    split; [|split; [contradiction|exact Hbuf]].
    apply Forall_forall. intros raw Hin. apply in_map_iff in Hin.
    destruct Hin as [k [<- _]]. apply raw_reading_range.
  - exists []. rewrite app_nil_r.
    split; [reflexivity|]. split; [simpl; lia|].
    split; [constructor|]. split; [reflexivity|exact Hbuf].
Qed.

(** X17: a successful read of an odd number of bytes yields one sample
    more than it holds whole records: the records are decoded in order,
    and the last byte is paired, as low byte, with the byte that the
    buffer held at the next position before the read. *)
Theorem poll_body_odd_frame (drv : Driver) (c : ADCChannel.t)
  (buffer : list byte) (voltages : list Z) (tr : trace) (j : nat) :
  let k := calls is_cont_read tr in
  let data := firstn 1024 (snd (drv_cont_read drv k)) in
  let volt := fun lo hi =>
    adc_cali_raw_to_voltage drv (ADCChannel._cali_handle c)
      (ADCChannel.raw_reading lo hi) in
  fst (drv_cont_read drv k) = ESP_OK ->
  List.length data = S (2 * j) ->
  snd (fst (ADCChannel.poll_body drv c buffer voltages tr)) =
    voltages
    ++ map (fun r => volt (fst r) (snd r)) (records (firstn (2 * j) data))
    ++ [volt (nth (2 * j) data x00) (nth (S (2 * j)) buffer x00)].
Proof.
  intros k data volt Hok Hlen.
  rewrite poll_body_spec. cbv zeta. cbn [fst snd]. fold k. rewrite Hok.
  change (ESP_OK =? ESP_OK) with true. cbv iota. fold data.
  f_equal. rewrite Hlen.
  replace (S (2 * j) + 1)%nat with (2 * S j)%nat by lia.
  rewrite Nat.div2_double, seq_S, map_app. cbn [map Nat.add].
  f_equal.
  - assert (Hl : List.length (firstn (2 * j) data) = (2 * j)%nat)
      by (rewrite length_firstn; lia).
    pose proof (records_decode volt j (firstn (2 * j) data)
                  (skipn (2 * j) data ++ skipn (S (2 * j)) buffer) Hl) as Hr.
    rewrite Hl, Nat.add_1_r, Nat.div2_succ_double in Hr.
    rewrite app_assoc, firstn_skipn in Hr. exact Hr.
  - f_equal. unfold volt. f_equal. f_equal.
    + apply app_nth1. lia.
    + rewrite app_nth2 by lia.
      rewrite nth_skipn. f_equal. lia.
Qed.

Lemma poll_body_odd_frame_witness :
  snd (fst (ADCChannel.poll_body odd_frame channel0 (repeat xff 1024) [] []))
  = [564; 3926].
Proof.
  assert (Hok : fst (drv_cont_read odd_frame (calls is_cont_read []))
                = ESP_OK) by reflexivity.
  assert (Hlen : List.length
                   (firstn 1024
                      (snd (drv_cont_read odd_frame (calls is_cont_read []))))
                 = S (2 * 1)) by reflexivity.
  exact (poll_body_odd_frame odd_frame channel0 (repeat xff 1024) [] [] 1
           Hok Hlen).
Defined.
